(** * Assistive OCR -> TTS pipeline: a shallow embedding of the core

    The development follows the Python sources
      - [core/ocr_engine.py]  (plausibility filter, candidate fusion),
      - [core/tts_engine.py]  (speech with fallback),
      - [core/pipeline.py]    (capture / recognition / speech stages,
                               start / stop life cycle),
      - [core/config.py]      (configuration dictionary and its defaults).

    Conventions of the embedding:
      - a Python [str] is a [string]; its characters are read as the code
        points U+0000..U+00FF, classified as Python classifies them;
      - a Python [int] is a [Z], [len] is [Z.of_nat (length _)];
      - a Python [float] (confidences, wall-clock times, intervals) is a
        rational [Q]: only comparisons and subtraction of such values are
        used by the embedded code, and rounding is outside the model; the
        infinities and NaN that [float] can read from a configured string
        are results of [Config.to_float] of their own;
      - a [dict] with string keys is a [gmap string _];
      - a [queue.Queue] is the list of its pending items, oldest first;
      - a worker loop is a step function over what the outside world hands
        it on each iteration (a frame and its recognition result, the clock).
*)

From stdpp Require Import gmap strings list.
From Stdlib Require Import QArith Ascii String ZArith Lia.

(** [length] is the length of a list; that of a string is [String.length]. *)
Local Abbreviation length := List.length (only parsing).

Local Open Scope string_scope.
Local Open Scope list_scope.
Local Open Scope Z_scope.

(** ** Python values used by the embedding *)

Module Py.

(** [x < y] on floats. *)
Definition Qltb (x y : Q) : bool := negb (Qle_bool y x).

(** [str.isspace] on one character (code points below 256):
    TAB..CR, FS..US, SPACE, NEL and NBSP. *)
Definition isspace (c : ascii) : bool :=
  let n := N_of_ascii c in
  ((9 <=? n) && (n <=? 13) || (28 <=? n) && (n <=? 32)
   || (n =? 133) || (n =? 160))%N.

(** [str.isalnum] on one character (code points below 256): the ASCII
    digits and letters, and the Latin-1 letters, superscript digits and
    vulgar fractions. *)
Definition isalnum (c : ascii) : bool :=
  let n := N_of_ascii c in
  ((48 <=? n) && (n <=? 57) || (65 <=? n) && (n <=? 90)
   || (97 <=? n) && (n <=? 122)
   || (n =? 170) || (n =? 178) || (n =? 179) || (n =? 181)
   || (n =? 185) || (n =? 186) || (188 <=? n) && (n <=? 190)
   || (192 <=? n) && (n <=? 214) || (216 <=? n) && (n <=? 246)
   || (248 <=? n) && (n <=? 255))%N.

(** [str.lstrip()], [str.rstrip()] and [str.strip()] without argument. *)
Fixpoint lstrip (s : string) : string :=
  match s with
  | EmptyString => EmptyString
  | String c s' => if isspace c then lstrip s' else s
  end.

Fixpoint rstrip (s : string) : string :=
  match s with
  | EmptyString => EmptyString
  | String c s' =>
      match rstrip s' with
      | EmptyString => if isspace c then EmptyString else String c EmptyString
      | r => String c r
      end
  end.

Definition strip (s : string) : string := rstrip (lstrip s).

(** [any(p(c) for c in s)] *)
Fixpoint any (p : ascii -> bool) (s : string) : bool :=
  match s with
  | EmptyString => false
  | String c s' => p c || any p s'
  end.

(** [len(s)] *)
Definition len (s : string) : Z := Z.of_nat (String.length s).

(** Truth value of a string: [bool(s)]. *)
Definition truthy (s : string) : bool :=
  match s with EmptyString => false | _ => true end.

(** The string contains a character satisfying [p]. *)
Definition contains (p : ascii -> bool) (s : string) : Prop :=
  exists c, In c (list_ascii_of_string s) /\ p c = true.

End Py.

(** ** core/ocr_engine.py *)

Module OcrEngine.

Import Py.

(** [class OCRResult]; a box is a 4-tuple of integers. *)
Record OCRResult := mkOCRResult {
  text : string;
  boxes : list (Z * Z * Z * Z);
  confidence : Q;
  engine : string
}.

(** [OCRResult("", [])]: the defaults give confidence 0.0 and engine "". *)
Definition empty_result : OCRResult := mkOCRResult "" [] 0%Q "".

(** The attributes of [OCREngine] that the embedded methods read. *)
Record OCREngine := mkOCREngine {
  min_confidence : Q;
  min_text_len : Z
}.

(** [OCREngine._is_plausible_text] *)
Definition _is_plausible_text (self : OCREngine) (t : string) : bool :=
  if negb (truthy t) then false
  else
    let stripped := strip t in
    if len stripped <? min_text_len self then false
    else if any isalnum stripped then true
    else false.

(** What one backend wrapper ([_ocr_tesseract], [_ocr_paddle], ...)
    returns: the result and its confidence. *)
Definition candidate : Type := OCRResult * Q.

(** [key=lambda rc: (len(rc[0].text or ""), rc[1])] *)
Definition fusion_key (rc : candidate) : Z * Q :=
  (len (text (fst rc)), snd rc).

(** [a > b] on such tuples: the first components decide unless they are
    equal, then the second ones do. *)
Definition key_gt (a b : Z * Q) : bool :=
  if negb (fst a =? fst b) then fst a >? fst b
  else if negb (Qeq_bool (snd a) (snd b)) then Qltb (snd b) (snd a)
  else false.

(** The built-in [max(iterable, key=...)]: the running maximum is replaced
    only by an item whose key is strictly greater, so the first of several
    maximal items is returned; [None] stands for the [ValueError] on an
    empty iterable. *)
Fixpoint max_from (best : candidate) (l : list candidate) : candidate :=
  match l with
  | [] => best
  | rc :: l' =>
      max_from (if key_gt (fusion_key rc) (fusion_key best) then rc else best) l'
  end.

Definition py_max (l : list candidate) : option candidate :=
  match l with
  | [] => None
  | rc :: l' => Some (max_from rc l')
  end.

(** [extract_text], lines 276-300: each enabled backend's return value is
    appended to [candidates] when its text is non-empty.  The argument is
    the list of those return values, in the order the backends are run. *)
Definition collect_candidates (outputs : list candidate) : list candidate :=
  List.filter (fun rc => truthy (text (fst rc))) outputs.

(** [extract_text], lines 302-314, on the collected candidates. *)
Definition fuse (self : OCREngine) (candidates : list candidate) : OCRResult :=
  match py_max candidates with
  | None => empty_result
  | Some (best_res, best_conf) =>
      if truthy (text best_res)
         && (min_text_len self <=? len (text best_res))
         && Qle_bool (min_confidence self) best_conf
      then best_res
      else empty_result
  end.

(** [extract_text] from the point where the backends have answered. *)
Definition extract_text (self : OCREngine) (outputs : list candidate) : OCRResult :=
  fuse self (collect_candidates outputs).

(** Order on fusion keys: length first, confidence as tie-break. *)
Definition key_le (a b : Z * Q) : Prop :=
  fst a < fst b \/ (fst a = fst b /\ (snd a <= snd b)%Q).

End OcrEngine.

(** ** core/tts_engine.py *)

Module TtsEngine.

Import Py.

(** Exceptions, as far as the handlers of [speak] tell them apart. *)
Inductive exn := TypeError | OtherError.

Inductive outcome (A : Type) :=
| Ret (a : A)
| Raise (e : exn).
Arguments Ret {A} a.
Arguments Raise {A} e.

(** What [coqui.tts] may return: a path ([str]), a sample buffer
    ([np.ndarray]), or anything else. *)
Inductive audio :=
| AudioPath (path : string)
| AudioArray (samples : list Z)
| AudioOther.

(** The primary backend, [CoquiTTS] (external): its two call shapes. *)
Record Coqui := mkCoqui {
  tts_full : string -> option string -> Q -> outcome audio;
    (* coqui.tts(text=text, speaker=voice, speed=speed) *)
  tts_text : string -> outcome audio
    (* coqui.tts(text) *)
}.

(** The sound libraries and the operating system (external). *)
Record Host := mkHost {
  sf_read : string -> outcome (list Z * Z);   (* sf.read(path, dtype="float32") *)
  sd_play : list Z -> Z -> outcome unit;      (* sd.play(..); sd.wait() *)
  sf_write : string -> list Z -> Z -> outcome unit;
  open_file : string -> outcome unit;         (* os.startfile / xdg-open *)
  run_espeak : string -> Q -> Q -> option string -> outcome unit
    (* the body of _espeak: building and running the OS command *)
}.

(** Observable actions of the speech stage, in program order. *)
Inductive event :=
| EvCoquiFull (t : string) (voice : option string) (speed : Q)
| EvCoquiText (t : string)
| EvSfRead (path : string)
| EvPlay (samples : list Z) (sr : Z)
| EvSfWrite (path : string)
| EvOpen (path : string)
| EvWarn (msg : string)
| EvEspeak (t : string) (speed volume : Q) (voice : option string).

(** [class TTSEngine]: the attributes [speak] uses, with the trace of
    actions performed so far. *)
Record TTSEngine := mkTTSEngine {
  coqui : option Coqui;
  last_audio_path : option string;
  trace : list event
}.

(** State-and-exception monad of the methods of [TTSEngine]. *)
Definition M (A : Type) : Type := TTSEngine -> outcome A * TTSEngine.

Definition ret {A} (a : A) : M A := fun s => (Ret a, s).
Definition raise {A} (e : exn) : M A := fun s => (Raise e, s).
Definition bind {A B} (m : M A) (k : A -> M B) : M B :=
  fun s => match m s with
           | (Ret a, s') => k a s'
           | (Raise e, s') => (Raise e, s')
           end.
(** [try: m  except Exception: h] *)
Definition try_except {A} (m : M A) (h : exn -> M A) : M A :=
  fun s => match m s with
           | (Ret a, s') => (Ret a, s')
           | (Raise e, s') => h e s'
           end.
(** [try: m  except TypeError: h] *)
Definition try_except_TypeError {A} (m : M A) (h : M A) : M A :=
  fun s => match m s with
           | (Raise TypeError, s') => h s'
           | r => r
           end.
Definition emit (e : event) : M unit :=
  fun s => (Ret tt, mkTTSEngine (coqui s) (last_audio_path s) (trace s ++ [e])).
Definition set_last_audio_path (p : string) : M unit :=
  fun s => (Ret tt, mkTTSEngine (coqui s) (Some p) (trace s)).
(** Calling into the outside world: the action is recorded, then its
    outcome is returned or raised. *)
Definition call {A} (e : event) (o : outcome A) : M A :=
  bind (emit e) (fun _ s => (o, s)).

(** The monad is used through stdpp's [x ← m; k] and [m;; k]. *)
#[global] Instance M_ret : MRet M := @ret.
#[global] Instance M_bind : MBind M := fun A B k m => bind m k.

Section WithHost.
Variable host : Host.

(** [TTSEngine._play_numpy_audio] *)
Definition _play_numpy_audio (data : list Z) (sr : Z) : M unit :=
  try_except
    (call (EvPlay data sr) (sd_play host data sr))
    (fun _ =>
       let tmp := "last_audio.wav" in
       call (EvSfWrite tmp) (sf_write host tmp data sr);;
       set_last_audio_path tmp;;
       try_except (call (EvOpen tmp) (open_file host tmp)) (fun _ => ret tt)).

(** [TTSEngine._espeak]: every exception of its body is caught and
    logged. *)
Definition _espeak (t : string) (speed volume : Q) (voice : option string) : M unit :=
  try_except
    (call (EvEspeak t speed volume voice) (run_espeak host t speed volume voice))
    (fun _ => ret tt).

(** Lines 65-72 of [speak]: what is done with the value [coqui.tts]
    returned. *)
Definition speak_audio (a : audio) : M unit :=
  match a with
  | AudioPath path =>
      set_last_audio_path path;;
      r ← call (EvSfRead path) (sf_read host path);
      _play_numpy_audio (fst r) (snd r)
  | AudioArray samples => _play_numpy_audio samples 22050
  | AudioOther => emit (EvWarn "Coqui returned unexpected audio type")
  end.

(** The body of the outer [try] of [speak], for a loaded primary backend. *)
Definition speak_primary (c : Coqui) (t : string) (voice : option string)
    (speed : Q) : M unit :=
  a ← try_except_TypeError
         (call (EvCoquiFull t voice speed) (tts_full c t voice speed))
         (call (EvCoquiText t) (tts_text c t));
  speak_audio a.

(** [TTSEngine.speak] *)
Definition speak (t : string) (voice : option string) (speed volume : Q) : M unit :=
  fun self =>
    if negb (truthy t) then ret tt self
    else
      match coqui self with
      | Some c =>
          try_except
            (speak_primary c t voice speed)
            (fun _ => emit (EvWarn "Coqui playback failed, falling back");;
                      _espeak t speed volume voice)
            self
      | None => _espeak t speed volume voice self
      end.

(** Whether an exception leaves [_play_numpy_audio]: the sound device
    fails and writing the audio file fails too. *)
Definition play_escapes (data : list Z) (sr : Z) : bool :=
  match sd_play host data sr with
  | Ret _ => false
  | Raise _ =>
      match sf_write host "last_audio.wav" data sr with
      | Ret _ => false
      | Raise _ => true
      end
  end.

(** Whether an exception leaves the handling of a synthesized [audio]. *)
Definition audio_escapes (a : audio) : bool :=
  match a with
  | AudioPath path =>
      match sf_read host path with
      | Ret r => play_escapes (fst r) (snd r)
      | Raise _ => true
      end
  | AudioArray samples => play_escapes samples 22050
  | AudioOther => false
  end.

(** Whether an exception leaves [speak_primary]: a [TypeError] of the
    first synthesis call is caught and the call retried with the text
    alone. *)
Definition primary_escapes (c : Coqui) (t : string) (voice : option string)
    (speed : Q) : bool :=
  match tts_full c t voice speed with
  | Ret a => audio_escapes a
  | Raise TypeError =>
      match tts_text c t with
      | Ret a => audio_escapes a
      | Raise _ => true
      end
  | Raise OtherError => true
  end.

(** Whether [speak] reaches a call of [_espeak]. *)
Definition falls_back (self : TTSEngine) (t : string) (voice : option string)
    (speed : Q) : bool :=
  match coqui self with
  | None => true
  | Some c => primary_escapes c t voice speed
  end.

End WithHost.

(** The calls of the fallback backend recorded in a trace, with their
    arguments [(text, speed, volume, voice)]. *)
Fixpoint espeak_calls (tr : list event) : list (string * Q * Q * option string) :=
  match tr with
  | [] => []
  | EvEspeak t speed volume voice :: tr' => (t, speed, volume, voice) :: espeak_calls tr'
  | _ :: tr' => espeak_calls tr'
  end.

(** What a method of the speech stage did, against the predicate that
    tells whether an exception leaves it. *)
Definition behaves (escapes : bool) (self : TTSEngine)
    (r : outcome unit * TTSEngine) : Prop :=
  (escapes = true <-> exists e, fst r = Raise e)
  /\ (escapes = false <-> fst r = Ret tt)
  /\ espeak_calls (trace (snd r)) = espeak_calls (trace self)
  /\ coqui (snd r) = coqui self.

(** *** Sample backends and hosts *)

(** A host on which every external call succeeds. *)
Definition host_ok : Host :=
  mkHost (fun _ => Ret ([], 22050)) (fun _ _ => Ret tt) (fun _ _ _ => Ret tt)
         (fun _ => Ret tt) (fun _ _ _ _ => Ret tt).

(** A host without a usable sound device. *)
Definition host_no_device : Host :=
  mkHost (fun _ => Ret ([], 22050)) (fun _ _ => Raise OtherError)
         (fun _ _ _ => Ret tt) (fun _ => Ret tt) (fun _ _ _ _ => Ret tt).

(** A primary backend whose [tts] rejects the keyword arguments with a
    [TypeError] and synthesizes from the text alone. *)
Definition coqui_text_only : Coqui :=
  mkCoqui (fun _ _ _ => Raise TypeError) (fun _ => Ret (AudioArray [0; 1; 0])).

(** A primary backend that synthesizes a sample buffer. *)
Definition coqui_ok : Coqui :=
  mkCoqui (fun _ _ _ => Ret (AudioArray [0; 1; 0])) (fun _ => Ret (AudioArray [0; 1; 0])).

(** A primary backend that fails on every call. *)
Definition coqui_broken : Coqui :=
  mkCoqui (fun _ _ _ => Raise OtherError) (fun _ => Raise OtherError).

End TtsEngine.

(** ** core/config.py *)

Module Config.

(** A JSON scalar of the configuration. *)
Inductive value :=
| VInt (z : Z)
| VFloat (q : Q)
| VBool (b : bool)
| VStr (s : string).

(** [config.data]: [Config] builds it by merging the saved file into
    [DEFAULT_CONFIG], so its four sections are always present. *)
Record data := mkData {
  camera : gmap string value;
  ocr : gmap string value;
  tts : gmap string value;
  app : gmap string value
}.

(** [d.get(key, dflt)] *)
Definition get (d : gmap string value) (key : string) (dflt : value) : value :=
  default dflt (d !! key).

(** [int(q)] on a float truncates toward zero. *)
Definition Qtrunc (q : Q) : Z := Z.quot (Qnum q) (Zpos (Qden q)).

(** *** The builtins [int] and [float] on a string

    Both skip white space around the numeral, accept one sign, and allow
    single underscores between digits. *)

(** The white space skipped around a numeral: TAB..CR, SPACE, NEL and
    NBSP.  The separators FS..US, which [str.strip] removes, are not
    skipped. *)
Definition is_num_space (c : ascii) : bool :=
  let n := N_of_ascii c in
  ((9 <=? n) && (n <=? 13) || (n =? 32) || (n =? 133) || (n =? 160))%N.

(** The decimal digits among the code points below 256. *)
Definition is_digit (c : ascii) : bool :=
  let n := N_of_ascii c in ((48 <=? n) && (n <=? 57))%N.

Definition digit_val (c : ascii) : Z := Z.of_N (N_of_ascii c) - 48.

Fixpoint lskip (s : string) : string :=
  match s with
  | EmptyString => EmptyString
  | String c s' => if is_num_space c then lskip s' else s
  end.

Fixpoint rskip (s : string) : string :=
  match s with
  | EmptyString => EmptyString
  | String c s' =>
      match rskip s' with
      | EmptyString => if is_num_space c then EmptyString else String c EmptyString
      | r => String c r
      end
  end.

(** An underscore must follow a digit and be followed by a digit; [prev]
    is the character before [s].  [None]: the numeral is malformed. *)
Fixpoint drop_underscores (prev : ascii) (s : string) : option string :=
  match s with
  | EmptyString => if Ascii.eqb prev "_" then None else Some EmptyString
  | String c s' =>
      if Ascii.eqb c "_" then
        if is_digit prev then drop_underscores c s' else None
      else if Ascii.eqb prev "_" && negb (is_digit c) then None
      else String c <$> drop_underscores c s'
  end.

(** The leading digits of [s], and what follows them. *)
Fixpoint span_digits (s : string) : string * string :=
  match s with
  | EmptyString => (EmptyString, EmptyString)
  | String c s' =>
      if is_digit c
      then let '(d, r) := span_digits s' in (String c d, r)
      else (EmptyString, s)
  end.

(** The number written by the digits [s] after the digits read into
    [acc]. *)
Fixpoint digits_value (acc : Z) (s : string) : Z :=
  match s with
  | EmptyString => acc
  | String c s' => digits_value (10 * acc + digit_val c) s'
  end.

(** An optional sign: whether it is a minus, and what follows it. *)
Definition split_sign (s : string) : bool * string :=
  match s with
  | String c r =>
      if Ascii.eqb c "-" then (true, r)
      else if Ascii.eqb c "+" then (false, r)
      else (false, s)
  | EmptyString => (false, s)
  end.

Definition signed (negative : bool) (z : Z) : Z := if negative then - z else z.

(** [sys.int_info.default_max_str_digits]: [int] refuses a string with
    more digits. *)
Definition INT_MAX_STR_DIGITS : nat := 4300.

(** [int(s)] on a string; [None] is the raised [ValueError]. *)
Definition int_of_string (s : string) : option Z :=
  let '(negative, body) := split_sign (rskip (lskip s)) in
  match drop_underscores "000"%char body with
  | None => None
  | Some u =>
      let '(d, rest) := span_digits u in
      if Py.truthy d && negb (Py.truthy rest)
         && (String.length d <=? INT_MAX_STR_DIGITS)%nat
      then Some (signed negative (digits_value 0 d))
      else None
  end.

(** What [float] can return: a finite number, an infinity or a NaN. *)
Inductive pyfloat :=
| Finite (q : Q)
| Inf (negative : bool)
| NaN.

(** The least magnitude that does not round to a finite double. *)
Definition FLOAT_OVERFLOW : Z := 2 ^ 1024 - 2 ^ 970.

(** The double nearest to the decimal numeral of value [q]: an infinity
    from [FLOAT_OVERFLOW] on, otherwise [q] itself (rationals stand for
    the finite floats). *)
Definition round_float (q : Q) : pyfloat :=
  if Qle_bool (inject_Z FLOAT_OVERFLOW) q then Inf false
  else if Qle_bool q (inject_Z (- FLOAT_OVERFLOW)) then Inf true
  else Finite q.

Definition lower (c : ascii) : ascii :=
  let n := N_of_ascii c in
  if ((65 <=? n) && (n <=? 90))%N then ascii_of_N (n + 32) else c.

Fixpoint lower_str (s : string) : string :=
  match s with
  | EmptyString => EmptyString
  | String c s' => String (lower c) (lower_str s')
  end.

(** The exponent part, up to the end of the numeral: nothing, or [e] or
    [E], an optional sign and at least one digit. *)
Definition parse_exponent (s : string) : option Z :=
  match s with
  | EmptyString => Some 0
  | String c r =>
      if Ascii.eqb (lower c) "e" then
        let '(negative, r') := split_sign r in
        let '(d, rest) := span_digits r' in
        if Py.truthy d && negb (Py.truthy rest)
        then Some (signed negative (digits_value 0 d))
        else None
      else None
  end.

(** [float(s)] on a string; [None] is the raised [ValueError]. *)
Definition float_of_string (s : string) : option pyfloat :=
  match drop_underscores "000"%char (rskip (lskip s)) with
  | None => None
  | Some u =>
      let '(negative, r) := split_sign u in
      let word := lower_str r in
      if String.eqb word "inf" || String.eqb word "infinity" then Some (Inf negative)
      else if String.eqb word "nan" then Some NaN
      else
        let '(ip, r1) := span_digits r in
        let '(fp, r2) :=
          match r1 with
          | String c r1' =>
              if Ascii.eqb c "." then span_digits r1' else (EmptyString, r1)
          | EmptyString => (EmptyString, r1)
          end in
        if negb (Py.truthy ip || Py.truthy fp) then None
        else
          match parse_exponent r2 with
          | None => None
          | Some e =>
              let m := signed negative (digits_value (digits_value 0 ip) fp) in
              Some (round_float
                      (Qred (inject_Z m * Qpower (inject_Z 10) (e - Py.len fp))))
          end
  end.

(** [float(v)]; [None] is the raised exception: the [OverflowError] of an
    [int] too large for a float, or the [ValueError] of a string that is
    not a numeral. *)
Definition to_float (v : value) : option pyfloat :=
  match v with
  | VInt z =>
      if Z.abs z <? FLOAT_OVERFLOW then Some (Finite (inject_Z z)) else None
  | VFloat q => Some (Finite q)
  | VBool b => Some (Finite (if b then 1%Q else 0%Q))
  | VStr s => float_of_string s
  end.

(** [float(v)] when it is a finite number.  [None]: [float(v)] raises, or
    it is an infinity or a NaN ([to_float] tells which). *)
Definition py_float (v : value) : option Q :=
  match to_float v with
  | Some (Finite q) => Some q
  | _ => None
  end.

(** [int(v)]; [None] is the raised [ValueError]. *)
Definition py_int (v : value) : option Z :=
  match v with
  | VInt z => Some z
  | VFloat q => Some (Qtrunc q)
  | VBool b => Some (if b then 1 else 0)
  | VStr s => int_of_string s
  end.

(** [n > v] for an [int] [n]; [None] is the [TypeError] of comparing an
    [int] with a [str]. *)
Definition int_gt (n : Z) (v : value) : option bool :=
  match v with
  | VInt z => Some (n >? z)
  | VFloat q => Some (Py.Qltb q (inject_Z n))
  | VBool b => Some (n >? (if b then 1 else 0))
  | VStr _ => None
  end.

(** [DEFAULT_CONFIG] *)
Definition DEFAULT_CONFIG : data :=
  mkData
    (<["source_type" := VStr "opencv"]>
       (<["camera_id" := VInt 0]> (<["resolution" := VStr "720p"]> ∅)))
    (<["engine" := VStr "tesseract"]>
       (<["language" := VStr "eng"]>
          (<["capture_interval" := VFloat 0.05]>
             (<["min_confidence" := VFloat 0.4]>
                (<["min_text_len" := VInt 2]> ∅)))))
    (<["engine" := VStr "coqui"]>
       (<["coqui_model" := VStr "tts_models/en/vctk/vits"]>
          (<["voice" := VStr "p335"]>
             (<["speed" := VFloat 1.0]> (<["volume" := VFloat 0.9]> ∅)))))
    (<["high_contrast" := VBool false]>
       (<["font_size" := VStr "16px"]> (<["max_history" := VInt 50]> ∅))).

End Config.

(** ** core/pipeline.py *)

Module Pipeline.

Import Py Config.
Import OcrEngine (OCRResult).

(** A captured image; only the external backends look inside it. *)
Definition Frame : Type := nat.

(** A [threading.Thread] object that has been started. *)
Record Thread := mkThread {
  name : string;
  ident : nat
}.

(** One dictionary appended to [self.history]. *)
Record HistoryEntry := mkEntry {
  ts : Q;
  text : string;
  engine : string;
  confidence : Q
}.

(** [class AssistivePipeline].  A queue holds [None] (the sentinel of
    [stop]) or a payload; [spawned] is ghost state: every thread this
    pipeline has started so far, in starting order. *)
Record AssistivePipeline := mkPipeline {
  cfg : Config.data;
  frame_q : list (option Frame);        (* queue.Queue(maxsize=1) *)
  text_q : list (option string);        (* queue.Queue() *)
  history : list HistoryEntry;
  running : bool;
  threads : list Thread;
  last_text : string;
  spawned : list Thread
}.

(** [AssistivePipeline.__init__] *)
Definition init (config : Config.data) : AssistivePipeline :=
  mkPipeline config [] [] [] false [] "" [].

Definition set_running (b : bool) (p : AssistivePipeline) : AssistivePipeline :=
  mkPipeline (cfg p) (frame_q p) (text_q p) (history p) b (threads p)
             (last_text p) (spawned p).
Definition set_frame_q (q : list (option Frame)) (p : AssistivePipeline) :=
  mkPipeline (cfg p) q (text_q p) (history p) (running p) (threads p)
             (last_text p) (spawned p).
Definition set_text_q (q : list (option string)) (p : AssistivePipeline) :=
  mkPipeline (cfg p) (frame_q p) q (history p) (running p) (threads p)
             (last_text p) (spawned p).
Definition set_history (h : list HistoryEntry) (p : AssistivePipeline) :=
  mkPipeline (cfg p) (frame_q p) (text_q p) h (running p) (threads p)
             (last_text p) (spawned p).
Definition set_last_text (t : string) (p : AssistivePipeline) :=
  mkPipeline (cfg p) (frame_q p) (text_q p) (history p) (running p) (threads p)
             t (spawned p).
Definition set_threads (ts : list Thread) (p : AssistivePipeline) :=
  mkPipeline (cfg p) (frame_q p) (text_q p) (history p) (running p) ts
             (last_text p) (spawned p).
(** [t.start()] *)
Definition thread_start (p : AssistivePipeline) (t : Thread) :=
  mkPipeline (cfg p) (frame_q p) (text_q p) (history p) (running p) (threads p)
             (last_text p) (spawned p ++ [t]).

(** *** Queues *)

(** [q.full()]; [maxsize] is [None] for an unbounded queue. *)
Definition full {A} (maxsize : option nat) (q : list A) : bool :=
  match maxsize with
  | Some n => (n <=? length q)%nat
  | None => false
  end.

Definition FRAME_Q_MAXSIZE : option nat := Some 1%nat.
Definition TEXT_Q_MAXSIZE : option nat := None.

(** [q.put_nowait(x)], and [q.put(x, timeout=..)] when no consumer frees
    a slot before the timeout: [None] is [queue.Full]. *)
Definition put {A} (maxsize : option nat) (q : list A) (x : A) : option (list A) :=
  if full maxsize q then None else Some (q ++ [x]).

(** [q.get_nowait()], and [q.get(timeout=..)] when no producer adds an
    item before the timeout: [None] is [queue.Empty]. *)
Definition get_nowait {A} (q : list A) : option (A * list A) :=
  match q with
  | [] => None
  | x :: q' => Some (x, q')
  end.

(** *** Life cycle *)

(** [AssistivePipeline.start] *)
Definition start (self : AssistivePipeline) : AssistivePipeline :=
  if running self then self
  else
    let n := length (spawned self) in
    let tcap := mkThread "capture" n in
    let tproc := mkThread "process" (n + 1) in
    let ttts := mkThread "tts" (n + 2) in
    let self := set_running true self in
    let self := set_threads [tcap; tproc; ttts] self in
    fold_left thread_start (threads self) self.

(** [AssistivePipeline.stop]; joining the threads changes nothing in the
    pipeline object.  [None] would be an exception escaping [stop]: both
    [queue.Full] are caught, so there is no such case. *)
Definition stop (self : AssistivePipeline) : option AssistivePipeline :=
  let self := set_running false self in
  let self :=
    match put FRAME_Q_MAXSIZE (frame_q self) None with
    | Some q => set_frame_q q self
    | None => self                      (* except queue.Full: pass *)
    end in
  let self :=
    match put TEXT_Q_MAXSIZE (text_q self) None with
    | Some q => set_text_q q self
    | None => self                      (* except queue.Full: pass *)
    end in
  Some self.

(** [AssistivePipeline.get_status] *)
Definition get_status (self : AssistivePipeline) : bool * string * Z :=
  (running self, last_text self, Z.of_nat (length (history self))).

(** [AssistivePipeline.get_history] *)
Definition get_history (self : AssistivePipeline) : list HistoryEntry :=
  rev (history self).

(** *** Recognition stage *)

(** The local variables of [_process_loop]. *)
Record ProcLocals := mkLocals {
  min_len : Z;
  min_conf : Q;
  l_last_text : string;
  l_last_time : Q;
  frame_count : Z
}.

(** The literal of line 132: a repeat is allowed after this many seconds. *)
Definition DEBOUNCE : Q := 1.5.

(** Lines 108-112; [None] when [int] or [float] raises, and when
    [min_confidence] is an infinity or a NaN, which [ProcLocals] has no
    value for. *)
Definition process_locals (self : AssistivePipeline) : option ProcLocals :=
  match py_int (get (ocr (cfg self)) "min_text_len" (VInt 3)) with
  | None => None
  | Some ml =>
      match py_float (get (ocr (cfg self)) "min_confidence" (VFloat 0.5)) with
      | None => None
      | Some mc => Some (mkLocals ml mc "" 0 0)
      end
  end.

Definition count_frame (loc : ProcLocals) : ProcLocals :=
  mkLocals (min_len loc) (min_conf loc) (l_last_text loc) (l_last_time loc)
           (frame_count loc + 1).
Definition remember (t : string) (now : Q) (loc : ProcLocals) : ProcLocals :=
  mkLocals (min_len loc) (min_conf loc) t now (frame_count loc).

(** Line 124: the candidate is too short. *)
Definition too_short (loc : ProcLocals) (t : string) : bool :=
  negb (truthy t) || (len t <? min_len loc).

(** Line 132: the duplicate check. *)
Definition is_duplicate (loc : ProcLocals) (t : string) (now : Q) : bool :=
  String.eqb t (l_last_text loc) && Qltb (now - l_last_time loc) DEBOUNCE.

(** Lines 136-144, under the lock: append, then drop the oldest entry
    once if the list is longer than [max_history].  [None] is the
    [TypeError] of the comparison, raised after the append. *)
Definition record_history (self : AssistivePipeline) (e : HistoryEntry)
    : AssistivePipeline * option unit :=
  let h := history self ++ [e] in
  match int_gt (Z.of_nat (length h)) (get (app (cfg self)) "max_history" (VInt 50)) with
  | None => (set_history h self, None)
  | Some true => (set_history (tail h) self, Some tt)      (* pop(0) *)
  | Some false => (set_history h self, Some tt)
  end.

(** Lines 120-149: one iteration of [_process_loop] on a frame that is
    not the sentinel; [res] is what [self.ocr.extract_text(frame)]
    returned and [now] what [time.time()] returns at line 131. *)
Definition process_frame (res : OCRResult) (now : Q)
    (st : ProcLocals * AssistivePipeline) : ProcLocals * AssistivePipeline :=
  let '(loc, self) := st in
  let loc := count_frame loc in
  let t := strip (OcrEngine.text res) in
  if too_short loc t then (loc, self)
  else if Qltb (OcrEngine.confidence res) (min_conf loc) then (loc, self)
  else if is_duplicate loc t now then (loc, self)
  else
    match record_history self
            (mkEntry now t (OcrEngine.engine res) (OcrEngine.confidence res)) with
    | (self, None) => (loc, self)             (* except Exception: continue *)
    | (self, Some _) =>
        let loc := remember t now loc in
        let self := set_last_text t self in
        (loc, set_text_q (text_q self ++ [Some t]) self)   (* put on the unbounded queue *)
    end.

(** Whether [process_frame] gets past the three [continue]s. *)
Definition accepts (loc : ProcLocals) (res : OCRResult) (now : Q) : bool :=
  let t := strip (OcrEngine.text res) in
  negb (too_short loc t)
  && negb (Qltb (OcrEngine.confidence res) (min_conf loc))
  && negb (is_duplicate loc t now).

Inductive control := Continue | Break.

(** One iteration of the [while] of [_process_loop] whose condition was
    true: the blocking [get], the sentinel test, then [process_frame]. *)
Definition process_iteration (ocr : Frame -> OCRResult) (now : Q)
    (st : ProcLocals * AssistivePipeline)
    : control * (ProcLocals * AssistivePipeline) :=
  let '(loc, self) := st in
  match get_nowait (frame_q self) with
  | None => (Continue, st)                           (* except queue.Empty *)
  | Some (None, q) => (Break, (loc, set_frame_q q self))
  | Some (Some frame, q) =>
      (Continue, process_frame (ocr frame) now (loc, set_frame_q q self))
  end.

(** A run of the recognition stage over frames that are all delivered. *)
Fixpoint process_frames (inputs : list (OCRResult * Q))
    (st : ProcLocals * AssistivePipeline) : ProcLocals * AssistivePipeline :=
  match inputs with
  | [] => st
  | (res, now) :: rest => process_frames rest (process_frame res now st)
  end.

(** Every frame of the run gets past the three [continue]s. *)
Fixpoint all_accepted (inputs : list (OCRResult * Q))
    (st : ProcLocals * AssistivePipeline) : bool :=
  match inputs with
  | [] => true
  | (res, now) :: rest =>
      accepts (fst st) res now && all_accepted rest (process_frame res now st)
  end.

(** The history entry written for an accepted frame. *)
Definition entry_of (inp : OCRResult * Q) : HistoryEntry :=
  mkEntry (snd inp) (strip (OcrEngine.text (fst inp)))
          (OcrEngine.engine (fst inp)) (OcrEngine.confidence (fst inp)).


(** *** Capture stage *)

(** What [_get_capture_source] returns: a camera index or a GStreamer
    pipeline description built from the configured width and height. *)
Inductive CapSource :=
| CamIndex (i : Z)
| GstPipeline (width height : value).

(** [AssistivePipeline._get_capture_source]; [None] when [int] raises. *)
Definition _get_capture_source (self : AssistivePipeline) : option CapSource :=
  let cam_cfg := camera (cfg self) in
  match cam_cfg !! "source_type" with
  | Some (VStr "gstreamer") =>
      Some (GstPipeline (get cam_cfg "width" (VInt 1920))
                        (get cam_cfg "height" (VInt 1080)))
  | _ => CamIndex <$> py_int (get cam_cfg "camera_id" (VInt 0))
  end.

(** The [cv2.VideoCapture] object, with the calls made on it. *)
Record VideoCapture := mkCap {
  isOpened : bool;
  frame_width : option Z;
  frame_height : option Z;
  buffersize : option Z;
  reads : nat;
  releases : nat
}.

(** [cv2.VideoCapture(cap_source)]; whether the device opens is decided
    outside the program. *)
Definition VideoCapture_new (opens : bool) : VideoCapture :=
  mkCap opens None None None 0 0.

Definition cap_set_size (w h : Z) (c : VideoCapture) : VideoCapture :=
  mkCap (isOpened c) (Some w) (Some h) (Some 1) (reads c) (releases c).
Definition cap_read (c : VideoCapture) : VideoCapture :=
  mkCap (isOpened c) (frame_width c) (frame_height c) (buffersize c)
        (S (reads c)) (releases c).
(** [cap.release()] *)
Definition cap_release (c : VideoCapture) : VideoCapture :=
  mkCap false (frame_width c) (frame_height c) (buffersize c)
        (reads c) (S (releases c)).

(** [max(0.05, x)]: the first argument is kept unless the second is
    greater. *)
Definition py_max2 (a b : Q) : Q := if Qltb a b then b else a.

(** The interval of the throttle: a number of seconds, or the infinity
    that [max] keeps when the configured value is [inf]. *)
Inductive interval :=
| Seconds (i : Q)
| Forever.

(** Line 67; [None] when [float] raises.  A NaN and [-inf] are not
    greater than 0.05, so [max] returns 0.05 for them. *)
Definition effective_interval (self : AssistivePipeline) : option interval :=
  match to_float (get (ocr (cfg self)) "capture_interval" (VFloat 0.1)) with
  | None => None
  | Some (Finite x) => Some (Seconds (py_max2 0.05 x))
  | Some (Inf false) => Some Forever
  | Some (Inf true) => Some (Seconds 0.05)
  | Some NaN => Some (Seconds 0.05)
  end.

(** The interval of line 67 when it is a number of seconds. *)
Definition capture_interval (self : AssistivePipeline) : option Q :=
  match effective_interval self with
  | Some (Seconds i) => Some i
  | _ => None
  end.

(** Lines 70-78. *)
Definition configure (self : AssistivePipeline) (src : CapSource)
    (cap : VideoCapture) : VideoCapture :=
  match src with
  | CamIndex _ =>
      if isOpened cap then
        match get (camera (cfg self)) "resolution" (VStr "720p") with
        | VStr "1080p" => cap_set_size 1920 1080 cap
        | _ => cap_set_size 1280 720 cap
        end
      else cap
  | GstPipeline _ _ => cap
  end.

(** What one pass through the [while] body meets: the result of
    [cap.read()], the clock, and whether another thread clears
    [self.running] (as [stop] does) before the condition is tested
    again. *)
Record CapObs := mkObs {
  ret : bool;
  frame : Frame;
  now : Q;
  stop_requested : bool
}.

(** The state threaded through [_capture_loop]. *)
Record CapState := mkCapState {
  pipeline : AssistivePipeline;
  cap : VideoCapture;
  last_push : Q
}.

(** Lines 96-103: make room, then enqueue; any exception is swallowed. *)
Definition push_frame (fr : Frame) (self : AssistivePipeline) : AssistivePipeline :=
  let q := frame_q self in
  let q := if full FRAME_Q_MAXSIZE q
           then match get_nowait q with Some (_, q') => q' | None => q end
           else q in
  match put FRAME_Q_MAXSIZE q (Some fr) with
  | Some q' => set_frame_q q' self
  | None => set_frame_q q self                       (* except queue.Full *)
  end.

(** Lines 86-103: the body of the [while]. *)
Definition capture_body (interval : Q) (o : CapObs) (st : CapState) : CapState :=
  let c := cap_read (cap st) in
  if negb (ret o) then mkCapState (pipeline st) c (last_push st)
  else if Qltb (now o - last_push st) interval
       then mkCapState (pipeline st) c (last_push st)
  else mkCapState (push_frame (frame o) (pipeline st)) c (now o).

Definition observe_stop (o : CapObs) (st : CapState) : CapState :=
  if stop_requested o
  then mkCapState (set_running false (pipeline st)) (cap st) (last_push st)
  else st.

(** How a run of the stage ends. *)
Inductive ending :=
| Returned              (* the function returned *)
| Raised                (* an exception left the function *)
| StillLooping.         (* the observations ran out inside the loop *)

(** Lines 85-105: the loop, then the release. *)
Fixpoint capture_while (interval : Q) (obs : list CapObs) (st : CapState)
    : ending * CapState :=
  if running (pipeline st) then
    match obs with
    | [] => (StillLooping, st)
    | o :: obs' =>
        capture_while interval obs' (observe_stop o (capture_body interval o st))
    end
  else (Returned, mkCapState (pipeline st) (cap_release (cap st)) (last_push st)).

(** The same loop when the interval is [inf]: [now - last_push < interval]
    holds on every pass, so each frame read is dropped at line 93. *)
Fixpoint capture_while_forever (obs : list CapObs) (st : CapState)
    : ending * CapState :=
  if running (pipeline st) then
    match obs with
    | [] => (StillLooping, st)
    | o :: obs' =>
        capture_while_forever obs'
          (observe_stop o (mkCapState (pipeline st) (cap_read (cap st)) (last_push st)))
    end
  else (Returned, mkCapState (pipeline st) (cap_release (cap st)) (last_push st)).

(** [AssistivePipeline._capture_loop]; the capture object is [None] when
    the function fails before creating it. *)
Definition _capture_loop (opens : bool) (obs : list CapObs)
    (self : AssistivePipeline)
    : ending * AssistivePipeline * option VideoCapture :=
  match _get_capture_source self with
  | None => (Raised, self, None)
  | Some cap_source =>
      let vc := VideoCapture_new opens in
      match effective_interval self with
      | None => (Raised, self, Some vc)
      | Some interval =>
          let vc := configure self cap_source vc in
          if negb (isOpened vc)
          then (Returned, set_running false self, Some vc)
          else
            let '(e, st) :=
              match interval with
              | Seconds i => capture_while i obs (mkCapState self vc 0)
              | Forever => capture_while_forever obs (mkCapState self vc 0)
              end in
            (e, pipeline st, Some (cap st))
      end
  end.

(** The source was released by the time the stage ended. *)
Definition released (r : ending * AssistivePipeline * option VideoCapture) : bool :=
  match snd r with
  | Some c => (1 <=? releases c)%nat
  | None => false
  end.

(** *** Sample pipelines and runs *)

(** The default configuration with one more entry in its "ocr" section. *)
Definition with_ocr (key : string) (v : value) (d : Config.data) : Config.data :=
  mkData (camera d) (<[key := v]> (ocr d)) (tts d) (app d).

(** The default configuration with one more entry in its "app" section. *)
Definition with_app (key : string) (v : value) (d : Config.data) : Config.data :=
  mkData (camera d) (ocr d) (tts d) (<[key := v]> (app d)).

(** A pipeline on the default configuration, started. *)
Definition sample_pipeline : AssistivePipeline := start (init DEFAULT_CONFIG).

(** Two frames are read, then [stop] is called. *)
Definition sample_capture_run : list CapObs :=
  [mkObs true 1%nat 10 false; mkObs true 2%nat 10.2 true].

(** The default configuration with the capture interval given as the
    string "0.01", started; two frames are read 0.03 s apart, then [stop]
    is called. *)
Definition sample_fast_pipeline : AssistivePipeline :=
  start (init (with_ocr "capture_interval" (VStr "0.01") DEFAULT_CONFIG)).
Definition sample_fast_run : list CapObs :=
  [mkObs true 1%nat 10 false; mkObs true 2%nat 10.03 true].

(** The frame queue that a throttle of [i] seconds leaves, read off the
    observations of a run and written without the loop's state: a frame
    that was read replaces the content of the queue when at least [i]
    seconds have passed since the last enqueued frame (at time [last]),
    and is dropped otherwise; nothing is read after the stop request. *)
Fixpoint throttled_queue (i last : Q) (q : list (option Frame))
    (obs : list CapObs) : list (option Frame) :=
  match obs with
  | [] => q
  | o :: rest =>
      if ret o && Qle_bool i (now o - last)
      then if stop_requested o then [Some (frame o)]
           else throttled_queue i (now o) [Some (frame o)] rest
      else if stop_requested o then q
           else throttled_queue i last q rest
  end.

(** The newest [m] entries of a history, oldest first. *)
Definition keep_newest (m : Z) (h : list HistoryEntry) : list HistoryEntry :=
  skipn (length h - Z.to_nat m) h.

(** Lines 143-144 for an integer bound [m]. *)
Definition evict (m : Z) (h : list HistoryEntry) : list HistoryEntry :=
  if Z.of_nat (length h) >? m then tail h else h.

(** A frame leaves the pipeline as it was: nothing is written to the
    history, nothing is queued for speech, only the frame counter moves. *)
Definition suppressed (res : OCRResult) (now : Q)
    (st : ProcLocals * AssistivePipeline) : Prop :=
  process_frame res now st = (count_frame (fst st), snd st).

(** A recognition result for the text "hello". *)
Definition sample_result : OCRResult :=
  OcrEngine.mkOCRResult "hello" [] 0.7 "tesseract".

(** The local variables of [_process_loop] on the default configuration. *)
Definition sample_locals : ProcLocals := mkLocals 2 0.4 "" 0 0.

(** Seven frames with different texts, one second apart. *)
Definition sample_frames : list (OCRResult * Q) :=
  [(OcrEngine.mkOCRResult "aa" [] 0.7 "tesseract", 1%Q);
   (OcrEngine.mkOCRResult "bb" [] 0.7 "tesseract", 2%Q);
   (OcrEngine.mkOCRResult "cc" [] 0.7 "tesseract", 3%Q);
   (OcrEngine.mkOCRResult "dd" [] 0.7 "tesseract", 4%Q);
   (OcrEngine.mkOCRResult "ee" [] 0.7 "tesseract", 5%Q);
   (OcrEngine.mkOCRResult "ff" [] 0.7 "tesseract", 6%Q);
   (OcrEngine.mkOCRResult "gg" [] 0.7 "tesseract", 7%Q)].

End Pipeline.

(** ** core/ocr_engine.py: the backend wrappers *)

Module OcrBackends.

Import Py OcrEngine.

(** What a call into a recognition library does: it returns its value or
    raises. *)
Inductive call (A : Type) :=
| Gives (a : A)
| Throws.
Arguments Gives {A} a.
Arguments Throws {A}.

(** [str.split()] without argument: the maximal runs of characters that
    are not whitespace; [cur] is the run being read. *)
Fixpoint split_from (cur : string) (s : string) : list string :=
  match s with
  | EmptyString => if truthy cur then [cur] else []
  | String c s' =>
      if isspace c
      then (if truthy cur then cur :: split_from EmptyString s'
            else split_from EmptyString s')
      else split_from (cur ++ String c EmptyString)%string s'
  end.

Definition split (s : string) : list string := split_from EmptyString s.

(** [OCRResult("", [], 0.0, tag), 0.0] *)
Definition no_candidate (tag : string) : candidate :=
  (mkOCRResult "" [] 0%Q tag, 0%Q).

(** [OCREngine._ocr_tesseract]; [available] is [TESSER_AVAILABLE] and
    [raw] what [pytesseract.image_to_string] does on the image. *)
Definition _ocr_tesseract (self : OCREngine) (available : bool)
    (raw : call string) : candidate :=
  if negb available then no_candidate "tesseract"
  else
    match raw with
    | Throws => no_candidate "tesseract"                   (* except Exception *)
    | Gives out =>
        let t := strip out in
        if negb (truthy t) || (len t <? min_text_len self)
        then no_candidate "tesseract"
        else if negb (_is_plausible_text self t) then no_candidate "tesseract"
        else
          let word_count := Z.of_nat (length (split t)) in
          let conf := if word_count >? 2 then 0.7%Q else 0.6%Q in
          (mkOCRResult t [] conf "tesseract", conf)
    end.

(** [OCREngine._ocr_trocr]; [loaded] tells whether processor and model are
    both set, and [raw] is what the conversion, generation and decoding of
    lines 225-232 do, up to and including the [[0]]. *)
Definition _ocr_trocr (self : OCREngine) (loaded : bool)
    (raw : call string) : candidate :=
  if negb loaded then no_candidate "trocr"
  else
    match raw with
    | Throws => no_candidate "trocr"                       (* except Exception *)
    | Gives out =>
        let t := strip out in
        if negb (truthy t) || negb (_is_plausible_text self t)
        then no_candidate "trocr"
        else (mkOCRResult t [] 0.7%Q "trocr", 0.7%Q)
    end.

(** [extract_text], lines 279-314, for an engine on which PaddleOCR and
    EasyOCR are not set up ([self.paddle] and [self.easyocr] are [None]):
    Tesseract is always asked, TrOCR when it is loaded. *)
Definition extract_text_tess_trocr (self : OCREngine) (available loaded : bool)
    (tess trocr : call string) : OCRResult :=
  extract_text self
    (_ocr_tesseract self available tess
     :: (if loaded then [_ocr_trocr self loaded trocr] else [])).

(** What every wrapper promises about a candidate with a text: the text is
    stripped and plausible, and the confidence is the estimate 0.6 or 0.7,
    stored in the result as well. *)
Definition estimated (self : OCREngine) (c : candidate) : Prop :=
  strip (text (fst c)) = text (fst c)
  /\ _is_plausible_text self (text (fst c)) = true
  /\ confidence (fst c) = snd c
  /\ (snd c = 0.6%Q \/ snd c = 0.7%Q).

End OcrBackends.

(** ** core/tts_engine.py: construction *)

Module TtsInit.

Import Py Config TtsEngine.

(** Truth value of a configuration scalar. *)
Definition value_truthy (v : value) : bool :=
  match v with
  | VInt z => negb (z =? 0)
  | VFloat q => negb (Qeq_bool q 0)
  | VBool b => b
  | VStr s => truthy s
  end.

(** [v == "coqui"] *)
Definition is_coqui (v : value) : bool :=
  match v with
  | VStr s => String.eqb s "coqui"
  | _ => false
  end.

(** [TTSEngine.__init__]; [available] is [COQUI_AVAILABLE] and [load] what
    the constructor [CoquiTTS(model_name=model, ...)] does. *)
Definition __init__ (available : bool) (load : value -> outcome Coqui)
    (cfg : gmap string value) : TTSEngine :=
  let engine := get cfg "engine" (VStr "coqui") in
  if is_coqui engine && available then
    let model := get cfg "coqui_model" (VStr "tts_models/en/vctk/vits") in
    if value_truthy model then
      match load model with
      | Ret c => mkTTSEngine (Some c) None []
      | Raise _ => mkTTSEngine None None []                (* except Exception *)
      end
    else mkTTSEngine None None []
  else mkTTSEngine None None [].

End TtsInit.

(** ** core/pipeline.py: the speech stage *)

Module SpeechStage.

Import Py Config TtsEngine Pipeline.

(** The arguments [_tts_loop] reads from the "tts" section for [speak]. *)
Record SpeakArgs := mkArgs {
  arg_voice : option string;
  arg_speed : Q;
  arg_volume : Q
}.

(** Lines 164-166.  The speech backends are modelled for a voice that is
    a string or absent and for numeric speed and volume; [None] marks a
    configuration outside of that. *)
Definition speak_args (cfg : Config.data) : option SpeakArgs :=
  let voice :=
    match tts cfg !! "voice" with
    | None => Some None
    | Some (VStr s) => Some (Some s)
    | Some _ => None
    end in
  match voice, get (tts cfg) "speed" (VFloat 1.0), get (tts cfg) "volume" (VFloat 0.9) with
  | Some v, VFloat s, VFloat a => Some (mkArgs v s a)
  | Some v, VFloat s, VInt a => Some (mkArgs v s (inject_Z a))
  | Some v, VInt s, VFloat a => Some (mkArgs v (inject_Z s) a)
  | Some v, VInt s, VInt a => Some (mkArgs v (inject_Z s) (inject_Z a))
  | _, _, _ => None
  end.

(** The state of the speech worker: the pipeline and its [self.tts]. *)
Definition SpeechState : Type := AssistivePipeline * TTSEngine.

(** Lines 158-171: one pass through the [while] body of [_tts_loop]. *)
Definition tts_iteration (host : Host) (args : SpeakArgs) (st : SpeechState)
    : control * SpeechState :=
  let '(self, engine) := st in
  match get_nowait (text_q self) with
  | None => (Continue, st)                                 (* except queue.Empty *)
  | Some (None, q) => (Break, (set_text_q q self, engine))
  | Some (Some t, q) =>
      (* an exception of [speak] would be swallowed by [except Exception] *)
      let r := speak host t (arg_voice args) (arg_speed args) (arg_volume args) engine in
      (Continue, (set_text_q q self, snd r))
  end.

(** [_tts_loop] for at most [n] passes; no other thread touches the
    pipeline meanwhile. *)
Fixpoint _tts_loop (host : Host) (args : SpeakArgs) (n : nat) (st : SpeechState)
    : ending * SpeechState :=
  if running (fst st) then
    match n with
    | O => (StillLooping, st)
    | S n' =>
        match tts_iteration host args st with
        | (Break, st') => (Returned, st')
        | (Continue, st') => _tts_loop host args n' st'
        end
    end
  else (Returned, st).

(** Speaking the texts one after the other. *)
Definition speak_all (host : Host) (args : SpeakArgs) (texts : list string)
    (engine : TTSEngine) : TTSEngine :=
  fold_left
    (fun e t => snd (speak host t (arg_voice args) (arg_speed args) (arg_volume args) e))
    texts engine.

End SpeechStage.

(** ** core/config.py: the configuration file *)

Module ConfigFile.

(** A JSON document.  A [dict] keeps its keys in insertion order, as
    Python's does: it is the list of its items, each key once. *)
#[warnings="-register-all"]
Inductive json :=
| JNull
| JBool (b : bool)
| JInt (z : Z)
| JFloat (q : Q)
| JStr (s : string)
| JList (l : list json)
| JDict (d : list (string * json)).

Abbreviation dict := (list (string * json)).

(** [d.get(k)] *)
Fixpoint dict_get (k : string) (d : dict) : option json :=
  match d with
  | [] => None
  | (k', v) :: d' => if String.eqb k k' then Some v else dict_get k d'
  end.

(** [d[k] = v]: an existing key keeps its place, a new one goes last. *)
Fixpoint dict_set (k : string) (v : json) (d : dict) : dict :=
  match d with
  | [] => [(k, v)]
  | (k', v') :: d' =>
      if String.eqb k k' then (k, v) :: d' else (k', v') :: dict_set k v d'
  end.

(** What [base[k]] holds after the body of the loop of [_merge_defaults]
    has run for the item [(k, v)], where [b] is [base.get(k)] before: the
    merged dictionary when both are dictionaries, [v] otherwise. *)
Fixpoint merged (v : json) (b : option json) {struct v} : json :=
  match v, b with
  | JDict vd, Some (JDict bd) =>
      JDict ((fix items (ov : dict) (base : dict) {struct ov} : dict :=
                match ov with
                | [] => base
                | (k, v') :: ov' =>
                    items ov' (dict_set k (merged v' (dict_get k base)) base)
                end) vd bd)
  | _, _ => v
  end.

(** [Config._merge_defaults(base, override)]: the dictionary [base] is
    afterwards. *)
Definition _merge_defaults (base override : dict) : dict :=
  fold_left (fun b kv => dict_set (fst kv) (merged (snd kv) (dict_get (fst kv) b)) b)
            override base.

(** [DEFAULT_CONFIG] *)
Definition DEFAULT_CONFIG : dict :=
  [("camera", JDict [("source_type", JStr "opencv"); ("camera_id", JInt 0);
                     ("resolution", JStr "720p")]);
   ("ocr", JDict [("engine", JStr "tesseract"); ("language", JStr "eng");
                  ("capture_interval", JFloat 0.05); ("min_confidence", JFloat 0.4);
                  ("min_text_len", JInt 2)]);
   ("tts", JDict [("engine", JStr "coqui");
                  ("coqui_model", JStr "tts_models/en/vctk/vits");
                  ("voice", JStr "p335"); ("speed", JFloat 1.0);
                  ("volume", JFloat 0.9)]);
   ("app", JDict [("high_contrast", JBool false); ("font_size", JStr "16px");
                  ("max_history", JInt 50)])].

(** The file at [filepath]: absent, not readable as JSON, or holding a
    document. *)
Inductive file :=
| Missing
| Corrupt
| Holds (j : json).

(** [class Config]: its data and the file it writes. *)
Record Config := mkConfig {
  data : dict;
  on_disk : file
}.

(** [Config.save]; writing the file is taken to succeed. *)
Definition save (d : dict) : Config := mkConfig d (Holds (JDict d)).

(** [Config.load]: any exception (unreadable file, invalid JSON, a
    document that is not an object and so has no [items]) leads to the
    defaults. *)
Definition load (f : file) : Config :=
  match f with
  | Holds (JDict saved) => save (_merge_defaults DEFAULT_CONFIG saved)
  | _ => save DEFAULT_CONFIG
  end.

(** [Config.__init__] *)
Definition __init__ (f : file) : Config :=
  match f with
  | Missing => save DEFAULT_CONFIG
  | _ => load f
  end.

(** [Config.update] *)
Definition update (self : Config) (patch : dict) : Config :=
  save (_merge_defaults (data self) patch).

(** The keys of a dictionary, in order. *)
Definition keys (d : dict) : list string := map fst d.

(** The key is not in the dictionary. *)
Definition absent (d : dict) (k : string) : bool :=
  match dict_get k d with None => true | Some _ => false end.

(** Every dictionary inside the document has each key once. *)
Fixpoint well_formed (j : json) : Prop :=
  match j with
  | JDict d =>
      NoDup (map fst d)
      /\ (fix all (d : dict) : Prop :=
            match d with
            | [] => True
            | (_, v) :: d' => well_formed v /\ all d'
            end) d
  | _ => True
  end.

(** Induction on a document with the hypothesis for every value of a
    dictionary. *)
Fixpoint json_dict_ind (P : json -> Prop)
    (Hother : forall j, (forall d, j <> JDict d) -> P j)
    (Hdict : forall d, Forall (fun kv => P (snd kv)) d -> P (JDict d))
    (j : json) {struct j} : P j :=
  match j with
  | JDict d =>
      Hdict d
        ((fix all (d : dict) : Forall (fun kv => P (snd kv)) d :=
            match d with
            | [] => @List.Forall_nil _ _
            | kv :: d' =>
                @List.Forall_cons _ _ kv d'
                  (json_dict_ind P Hother Hdict (snd kv)) (all d')
            end) d)
  | JNull => Hother JNull ltac:(discriminate)
  | JBool b => Hother (JBool b) ltac:(discriminate)
  | JInt z => Hother (JInt z) ltac:(discriminate)
  | JFloat q => Hother (JFloat q) ltac:(discriminate)
  | JStr t => Hother (JStr t) ltac:(discriminate)
  | JList l => Hother (JList l) ltac:(discriminate)
  end.

End ConfigFile.

(** * Properties *)

(** ** Python values *)

Module PyFacts.

Import Py.

Lemma Qltb_lt (x y : Q) : Qltb x y = true <-> (x < y)%Q.
Proof.
  unfold Qltb. rewrite negb_true_iff. split.
  - intros H. apply Qnot_le_lt. intros Hle.
    apply Qle_bool_iff in Hle. congruence.
  - intros H. destruct (Qle_bool y x) eqn:E; [|reflexivity].
    apply Qle_bool_iff in E. exfalso. exact (Qlt_not_le _ _ H E).
Qed.

Lemma Qltb_ge (x y : Q) : Qltb x y = false <-> (y <= x)%Q.
Proof.
  unfold Qltb. rewrite negb_false_iff. apply Qle_bool_iff.
Qed.

Lemma any_contains p s : any p s = true <-> contains p s.
Proof.
  unfold contains. induction s as [|c s IH]; simpl.
  - split; [discriminate | intros (c & [] & _)].
  - rewrite orb_true_iff, IH. split.
    + intros [H | (d & Hd & Hp)]; [exists c | exists d]; auto.
    + intros (d & [-> | Hd] & Hp); [left | right; exists d]; auto.
Qed.

Lemma any_not_contains p s : any p s = false <-> ~ contains p s.
Proof.
  rewrite <- any_contains. destruct (any p s); split; congruence.
Qed.

(** No whitespace character is alphanumeric. *)
Lemma isspace_not_isalnum c : isspace c = true -> isalnum c = false.
Proof.
  destruct c as [[] [] [] [] [] [] [] []]; vm_compute; congruence.
Qed.

Lemma any_isalnum_lstrip s : any isalnum (lstrip s) = any isalnum s.
Proof.
  induction s as [|c s IH]; simpl; [reflexivity|].
  destruct (isspace c) eqn:E; [|reflexivity].
  rewrite (isspace_not_isalnum _ E). exact IH.
Qed.

Lemma any_isalnum_rstrip s : any isalnum (rstrip s) = any isalnum s.
Proof.
  induction s as [|c s IH]; simpl; [reflexivity|].
  rewrite <- IH. destruct (rstrip s) as [|d r]; [|reflexivity].
  destruct (isspace c) eqn:E; simpl; [|reflexivity].
  rewrite (isspace_not_isalnum _ E). reflexivity.
Qed.

(** Stripping removes no alphanumeric character. *)
Lemma any_isalnum_strip s : any isalnum (strip s) = any isalnum s.
Proof.
  unfold strip. rewrite any_isalnum_rstrip. apply any_isalnum_lstrip.
Qed.

Lemma len_nonneg s : 0 <= len s.
Proof. unfold len. lia. Qed.

Lemma truthy_len s : truthy s = true <-> 0 < len s.
Proof.
  unfold len. destruct s; simpl; split; intros; try lia; congruence.
Qed.

End PyFacts.

(** ** Recognition backends: plausibility and fusion *)

Module OcrEngineSpec.

Import Py PyFacts OcrEngine.

(** C2.  [_is_plausible_text] rejects a string exactly when its stripped
    length is below [min_text_len] or it contains no alphanumeric
    character; with [min_text_len = 2] it rejects "!!!" and accepts "ok". *)
Theorem plausibility_filter_spec :
  (forall (self : OCREngine) (t : string),
      _is_plausible_text self t = false <->
      (len (strip t) < min_text_len self \/ ~ contains isalnum t))
  /\ (forall mc, _is_plausible_text (mkOCREngine mc 2) "!!!" = false)
  /\ (forall mc, _is_plausible_text (mkOCREngine mc 2) "ok" = true).
Proof.
  split; [|split; reflexivity].
  intros self t. unfold _is_plausible_text.
  rewrite <- any_not_contains, <- (any_isalnum_strip t).
  destruct (truthy t) eqn:Ht; simpl.
  - destruct (Z.ltb_spec (len (strip t)) (min_text_len self)) as [Hlt|Hge].
    + split; auto.
    + destruct (any isalnum (strip t)); split; intros H; try congruence; auto.
      destruct H as [H|H]; [lia | congruence].
  - destruct t; [|discriminate]. simpl. split; auto.
Qed.

Lemma key_le_refl a : key_le a a.
Proof. right. split; [reflexivity | apply Qle_refl]. Qed.

Lemma key_le_trans a b c : key_le a b -> key_le b c -> key_le a c.
Proof.
  unfold key_le. intros [H1 | [H1 H1']] [H2 | [H2 H2']].
  - left; lia.
  - left; lia.
  - left; lia.
  - right. split; [lia | eapply Qle_trans; eassumption].
Qed.

(** The tuple comparison of Python decides the order [key_le]. *)
Lemma key_gt_false a b : key_gt a b = false -> key_le a b.
Proof.
  unfold key_gt, key_le.
  destruct (Z.eqb_spec (fst a) (fst b)) as [He|Hne]; simpl.
  - destruct (Qeq_bool (snd a) (snd b)) eqn:Hq; simpl; intros H; right; split; auto.
    + apply Qeq_bool_iff in Hq. rewrite Hq. apply Qle_refl.
    + apply Qltb_ge. exact H.
  - intros H. left. lia.
Qed.

Lemma key_gt_true a b : key_gt a b = true -> key_le b a.
Proof.
  unfold key_gt, key_le.
  destruct (Z.eqb_spec (fst a) (fst b)) as [He|Hne]; simpl.
  - destruct (Qeq_bool (snd a) (snd b)) eqn:Hq; simpl; intros H; [discriminate|].
    right. split; [auto|]. apply Qlt_le_weak, Qltb_lt. exact H.
  - intros H. left. lia.
Qed.

Lemma max_from_In best l : In (max_from best l) (best :: l).
Proof.
  revert best. induction l as [|rc l IH]; intros best; simpl; [auto|].
  destruct (IH (if key_gt (fusion_key rc) (fusion_key best) then rc else best))
    as [H|H]; [|auto].
  rewrite <- H. destruct (key_gt _ _); auto.
Qed.

Lemma max_from_ge_best best l :
  key_le (fusion_key best) (fusion_key (max_from best l)).
Proof.
  revert best. induction l as [|rc l IH]; intros best; simpl.
  - apply key_le_refl.
  - destruct (key_gt (fusion_key rc) (fusion_key best)) eqn:E; [|apply IH].
    eapply key_le_trans; [apply key_gt_true; exact E | apply IH].
Qed.

Lemma max_from_upper best l rc :
  In rc (best :: l) -> key_le (fusion_key rc) (fusion_key (max_from best l)).
Proof.
  revert best. induction l as [|x l IH]; intros best [<- | Hin].
  - apply max_from_ge_best.
  - destruct Hin.
  - apply max_from_ge_best.
  - simpl. destruct Hin as [<- | Hin].
    + destruct (key_gt (fusion_key x) (fusion_key best)) eqn:E.
      * apply max_from_ge_best.
      * eapply key_le_trans; [apply key_gt_false; exact E | apply max_from_ge_best].
    + apply IH. right. exact Hin.
Qed.

(** [fuse] returns the selected candidate when it meets the thresholds and
    the empty result otherwise. *)
Lemma fuse_py_max self cands best :
  py_max cands = Some best ->
  fuse self cands =
    if truthy (text (fst best))
       && (min_text_len self <=? len (text (fst best)))
       && Qle_bool (min_confidence self) (snd best)
    then fst best else empty_result.
Proof.
  intros H. unfold fuse. rewrite H. destruct best as [r c]. reflexivity.
Qed.

(** The order of the key, written out on a candidate and the selected
    one. *)
Lemma max_from_longest_then_most_confident best l rc :
  In rc (best :: l) ->
  len (text (fst rc)) < len (text (fst (max_from best l)))
  \/ (len (text (fst rc)) = len (text (fst (max_from best l)))
      /\ (snd rc <= snd (max_from best l))%Q).
Proof. intros H. exact (max_from_upper best l rc H). Qed.

(** C1.  On a non-empty list of surviving candidates the fusion step of
    [extract_text] selects a candidate of the list such that every
    candidate has a shorter text, or a text of the same length and a
    confidence that is not higher, and [extract_text] returns the selected
    candidate when it meets the thresholds.  On the candidates
    [("a", 0.9); ("abcdef", 0.5)] it selects "abcdef"; of two candidates
    with texts of the same length it selects the more confident one,
    whichever comes first. *)
Theorem fusion_selects_longest_then_most_confident :
  (forall (self : OCREngine) (cands : list candidate),
      cands <> [] ->
      exists best,
        py_max cands = Some best
        /\ In best cands
        /\ (forall rc, In rc cands ->
              len (text (fst rc)) < len (text (fst best))
              \/ (len (text (fst rc)) = len (text (fst best))
                  /\ (snd rc <= snd best)%Q))
        /\ fuse self cands =
             if truthy (text (fst best))
                && (min_text_len self <=? len (text (fst best)))
                && Qle_bool (min_confidence self) (snd best)
             then fst best else empty_result)
  /\ (forall e1 e2,
        py_max [(mkOCRResult "a" [] 0.9 e1, 0.9%Q);
                (mkOCRResult "abcdef" [] 0.5 e2, 0.5%Q)]
        = Some (mkOCRResult "abcdef" [] 0.5 e2, 0.5%Q))
  /\ (forall e1 e2,
        text (fuse (mkOCREngine 0.5 3)
                   [(mkOCRResult "a" [] 0.9 e1, 0.9%Q);
                    (mkOCRResult "abcdef" [] 0.5 e2, 0.5%Q)])
        = "abcdef")
  /\ (forall e1 e2,
        py_max [(mkOCRResult "ab" [] 0.5 e1, 0.5%Q);
                (mkOCRResult "cd" [] 0.9 e2, 0.9%Q)]
        = Some (mkOCRResult "cd" [] 0.9 e2, 0.9%Q))
  /\ (forall e1 e2,
        py_max [(mkOCRResult "cd" [] 0.9 e2, 0.9%Q);
                (mkOCRResult "ab" [] 0.5 e1, 0.5%Q)]
        = Some (mkOCRResult "cd" [] 0.9 e2, 0.9%Q)).
Proof.
  split; [|repeat split; reflexivity].
  intros self [|rc l] Hne; [congruence|].
  exists (max_from rc l). split; [reflexivity|]. split; [apply max_from_In|].
  split; [intros x Hx; apply max_from_longest_then_most_confident; exact Hx|].
  apply fuse_py_max. reflexivity.
Qed.

(** The general statement of C1 at two candidates with texts of the same
    length: the more confident one is selected and returned. *)
Lemma fusion_selects_witness :
  exists best,
    py_max [(mkOCRResult "ab" [] 0.5 "tesseract", 0.5%Q);
            (mkOCRResult "cd" [] 0.9 "paddle", 0.9%Q)] = Some best
    /\ In best [(mkOCRResult "ab" [] 0.5 "tesseract", 0.5%Q);
                (mkOCRResult "cd" [] 0.9 "paddle", 0.9%Q)]
    /\ (forall rc,
          In rc [(mkOCRResult "ab" [] 0.5 "tesseract", 0.5%Q);
                 (mkOCRResult "cd" [] 0.9 "paddle", 0.9%Q)] ->
          len (text (fst rc)) < len (text (fst best))
          \/ (len (text (fst rc)) = len (text (fst best))
              /\ (snd rc <= snd best)%Q))
    /\ fuse (mkOCREngine 0.5 2)
             [(mkOCRResult "ab" [] 0.5 "tesseract", 0.5%Q);
              (mkOCRResult "cd" [] 0.9 "paddle", 0.9%Q)] =
         if truthy (text (fst best))
            && (2 <=? len (text (fst best)))
            && Qle_bool 0.5 (snd best)
         then fst best else empty_result.
Proof.
  apply (proj1 fusion_selects_longest_then_most_confident (mkOCREngine 0.5 2)).
  discriminate.
Defined.

End OcrEngineSpec.

(** ** Speech stage *)

Module TtsEngineSpec.

Import Py PyFacts TtsEngine.

Lemma espeak_calls_app tr1 tr2 :
  espeak_calls (tr1 ++ tr2) = espeak_calls tr1 ++ espeak_calls tr2.
Proof.
  induction tr1 as [|e tr1 IH]; simpl; [reflexivity|].
  destruct e; simpl; rewrite ?IH; reflexivity.
Qed.

(** Unfolds the monadic operations down to matches on the outcomes of the
    external calls. *)
Ltac run_monad :=
  cbv [speak speak_primary _play_numpy_audio _espeak call emit
       set_last_audio_path try_except try_except_TypeError bind ret raise
       mbind mret M_bind M_ret] in *;
  cbn [fst snd trace coqui last_audio_path] in *.

Ltac case_outcome o :=
  let E := fresh "E" in
  destruct o as [?|[|]] eqn:E; cbn [fst snd trace coqui last_audio_path] in *;
  repeat match goal with u : unit |- _ => destruct u end.

(** [_play_numpy_audio] raises exactly when [play_escapes] says so, and
    never calls the fallback backend. *)
Lemma play_numpy_audio_spec host data sr self :
  let r := _play_numpy_audio host data sr self in
  (play_escapes host data sr = true <-> exists e, fst r = Raise e)
  /\ (play_escapes host data sr = false <-> fst r = Ret tt)
  /\ espeak_calls (trace (snd r)) = espeak_calls (trace self)
  /\ coqui (snd r) = coqui self.
Proof.
  unfold play_escapes. run_monad.
  case_outcome (sd_play host data sr);
    [|case_outcome (sf_write host "last_audio.wav" data sr);
      [case_outcome (open_file host "last_audio.wav")| |]
     |case_outcome (sf_write host "last_audio.wav" data sr);
      [case_outcome (open_file host "last_audio.wav")| |]];
    rewrite ?espeak_calls_app; simpl; rewrite ?app_nil_r;
    repeat split; try congruence; eauto;
    try (intros [e He]; congruence).
Qed.

Lemma play_numpy_audio_behaves host data sr self :
  behaves (play_escapes host data sr) self (_play_numpy_audio host data sr self).
Proof. apply play_numpy_audio_spec. Qed.

Lemma behaves_frame escapes self self' r :
  espeak_calls (trace self') = espeak_calls (trace self) ->
  coqui self' = coqui self ->
  behaves escapes self' r -> behaves escapes self r.
Proof.
  unfold behaves. intros Ht Hc (H1 & H2 & H3 & H4).
  rewrite <- Ht, <- Hc. auto.
Qed.

Lemma speak_audio_behaves host a self :
  behaves (audio_escapes host a) self (speak_audio host a self).
Proof.
  destruct a as [path|samples|]; cbn [speak_audio audio_escapes].
  - cbv [mbind M_bind bind set_last_audio_path call emit].
    case_outcome (sf_read host path).
    + eapply behaves_frame; [| |apply play_numpy_audio_behaves];
        cbn [trace coqui]; rewrite ?espeak_calls_app, ?app_nil_r; reflexivity.
    + unfold behaves; cbn [fst snd trace coqui].
      rewrite espeak_calls_app, app_nil_r.
      repeat split; try congruence; eauto.
    + unfold behaves; cbn [fst snd trace coqui].
      rewrite espeak_calls_app, app_nil_r.
      repeat split; try congruence; eauto.
  - apply play_numpy_audio_behaves.
  - unfold behaves, emit; cbn [fst snd trace coqui].
    rewrite espeak_calls_app, app_nil_r.
    repeat split; try congruence. intros [e He]; congruence.
Qed.

Lemma speak_primary_behaves host c t voice speed self :
  behaves (primary_escapes host c t voice speed) self
          (speak_primary host c t voice speed self).
Proof.
  unfold speak_primary, primary_escapes.
  cbv [mbind M_bind bind try_except_TypeError call emit].
  case_outcome (tts_full c t voice speed).
  - eapply behaves_frame; [| |apply speak_audio_behaves];
      cbn [trace coqui]; rewrite ?espeak_calls_app, ?app_nil_r; reflexivity.
  - case_outcome (tts_text c t).
    + eapply behaves_frame; [| |apply speak_audio_behaves];
        cbn [trace coqui]; rewrite ?espeak_calls_app, ?app_nil_r; reflexivity.
    + unfold behaves; cbn [fst snd trace coqui].
      rewrite !espeak_calls_app, !app_nil_r.
      repeat split; try congruence; eauto.
    + unfold behaves; cbn [fst snd trace coqui].
      rewrite !espeak_calls_app, !app_nil_r.
      repeat split; try congruence; eauto.
  - unfold behaves; cbn [fst snd trace coqui].
    rewrite !espeak_calls_app, !app_nil_r.
    repeat split; try congruence; eauto.
Qed.

(** [_espeak] records one call with its arguments and never raises. *)
Lemma espeak_spec host t speed volume voice self :
  let r := _espeak host t speed volume voice self in
  fst r = Ret tt
  /\ trace (snd r) = trace self ++ [EvEspeak t speed volume voice].
Proof.
  cbv [_espeak try_except call bind emit ret].
  case_outcome (run_espeak host t speed volume voice); auto.
Qed.

(** C6, as the code has it.  For a non-empty text [speak] returns normally
    and calls the fallback backend [_espeak], once and with the text, speed,
    volume and voice it was given, exactly when the primary backend is
    absent or an exception leaves the primary path; in particular it does
    so when the backend is absent and whenever [speak_primary] raises.  A
    [TypeError] of the first synthesis call is retried with the text alone,
    and a failure of the sound device is handled by writing the audio to a
    file: neither reaches the fallback by itself. *)
Theorem speak_falls_back_when_primary_escapes
    (host : Host) (self : TTSEngine) (t : string) (voice : option string)
    (speed volume : Q) :
  truthy t = true ->
  let r := speak host t voice speed volume self in
  fst r = Ret tt
  /\ espeak_calls (trace (snd r)) =
       espeak_calls (trace self)
       ++ (if falls_back host self t voice speed
           then [(t, speed, volume, voice)] else [])
  /\ (coqui self = None ->
       espeak_calls (trace (snd r)) =
       espeak_calls (trace self) ++ [(t, speed, volume, voice)])
  /\ (forall c e self',
        coqui self = Some c ->
        speak_primary host c t voice speed self = (Raise e, self') ->
        espeak_calls (trace (snd r)) =
        espeak_calls (trace self) ++ [(t, speed, volume, voice)]).
Proof.
  intros Ht r.
  assert (Hmain : fst r = Ret tt
     /\ espeak_calls (trace (snd r)) =
         espeak_calls (trace self)
         ++ (if falls_back host self t voice speed
             then [(t, speed, volume, voice)] else [])).
  { subst r. unfold speak, falls_back. rewrite Ht. cbn [negb].
    destruct (coqui self) as [c|] eqn:Hc.
    - pose proof (speak_primary_behaves host c t voice speed self)
        as (H1 & H2 & H3 & H4).
      unfold try_except.
      destruct (speak_primary host c t voice speed self) as [[[]|e] s1] eqn:E;
        cbn [fst snd] in *.
      + rewrite (proj2 H2 eq_refl). rewrite app_nil_r. auto.
      + rewrite (proj2 H1 (ex_intro _ e eq_refl)).
        cbv [mbind M_bind bind emit].
        pose proof (espeak_spec host t speed volume voice
          (mkTTSEngine (coqui s1) (last_audio_path s1)
             (trace s1 ++ [EvWarn "Coqui playback failed, falling back"])))
          as [Hr Htr].
        cbn zeta in Hr, Htr. split; [exact Hr|].
        rewrite Htr. cbn [trace]. rewrite !espeak_calls_app. simpl.
        rewrite app_nil_r, H3. reflexivity.
    - pose proof (espeak_spec host t speed volume voice self) as [Hr Htr].
      cbn zeta in Hr, Htr. split; [exact Hr|].
      rewrite Htr, espeak_calls_app. reflexivity. }
  destruct Hmain as [Hret Hcalls]. split; [exact Hret|]. split; [exact Hcalls|].
  split.
  - intros Hc. rewrite Hcalls. unfold falls_back. rewrite Hc. reflexivity.
  - intros c e self' Hc Hraise. rewrite Hcalls. unfold falls_back. rewrite Hc.
    pose proof (speak_primary_behaves host c t voice speed self) as (H1 & _).
    rewrite (proj2 H1); [reflexivity|]. exists e. rewrite Hraise. reflexivity.
Qed.

(** C6 at a concrete call: the primary backend fails, the fallback is
    called with the arguments of [speak]. *)
Lemma speak_falls_back_witness :
  truthy "hello" = true
  /\ espeak_calls
       (trace (snd (speak host_ok "hello" (Some "p335") 1.0 0.9
                      (mkTTSEngine (Some coqui_broken) None []))))
     = [("hello", 1.0%Q, 0.9%Q, Some "p335")].
Proof.
  split; [reflexivity|].
  exact (proj1 (proj2 (speak_falls_back_when_primary_escapes
                         host_ok (mkTTSEngine (Some coqui_broken) None [])
                         "hello" (Some "p335") 1.0 0.9 eq_refl))).
Defined.

(** C6 as stated fails: the primary backend raises a [TypeError] during
    synthesis, [speak] retries it with the text alone and plays the result,
    and the fallback backend is never called; likewise when playback fails
    on the sound device, the audio is written to a file and opened. *)
Lemma primary_exception_without_fallback :
  (tts_full coqui_text_only "hello" (Some "p335") 1.0 = Raise TypeError
   /\ trace (snd (speak host_ok "hello" (Some "p335") 1.0 0.9
                    (mkTTSEngine (Some coqui_text_only) None [])))
      = [EvCoquiFull "hello" (Some "p335") 1.0; EvCoquiText "hello";
         EvPlay [0; 1; 0] 22050]
   /\ espeak_calls
        (trace (snd (speak host_ok "hello" (Some "p335") 1.0 0.9
                       (mkTTSEngine (Some coqui_text_only) None [])))) = [])
  /\ (sd_play host_no_device [0; 1; 0] 22050 = Raise OtherError
      /\ trace (snd (speak host_no_device "hello" (Some "p335") 1.0 0.9
                       (mkTTSEngine (Some coqui_ok) None [])))
         = [EvCoquiFull "hello" (Some "p335") 1.0; EvPlay [0; 1; 0] 22050;
            EvSfWrite "last_audio.wav"; EvOpen "last_audio.wav"]
      /\ espeak_calls
           (trace (snd (speak host_no_device "hello" (Some "p335") 1.0 0.9
                          (mkTTSEngine (Some coqui_ok) None [])))) = []).
Proof. repeat split. Qed.

End TtsEngineSpec.

(** ** Pipeline life cycle *)

Module LifecycleSpec.

Import Py PyFacts Config Pipeline.

Lemma start_running self : running (start self) = true.
Proof.
  unfold start. destruct (running self) eqn:E; [exact E | reflexivity].
Qed.

Lemma start_when_running self : running self = true -> start self = self.
Proof. intros H. unfold start. rewrite H. reflexivity. Qed.

(** C8.  [start] on a running pipeline changes nothing, so a second call
    of [start] leaves what the first one produced; on a new pipeline two
    calls start exactly the three workers, each once. *)
Theorem start_is_idempotent :
  (forall self, running self = true -> start self = self)
  /\ (forall self, start (start self) = start self)
  /\ (forall config,
        let p := start (start (init config)) in
        running p = true
        /\ threads p = [mkThread "capture" 0; mkThread "process" 1; mkThread "tts" 2]
        /\ spawned p = threads p
        /\ NoDup (spawned p)).
Proof.
  split; [exact start_when_running|]. split.
  - intros self. apply start_when_running, start_running.
  - intros config p. subst p. rewrite start_when_running by apply start_running.
    cbn. repeat split.
    repeat (constructor;
            [rewrite ?not_elem_of_cons; repeat split;
             solve [discriminate | apply not_elem_of_nil]|]).
    constructor.
Qed.

(** C8 on the running pipeline obtained from the default configuration. *)
Lemma start_is_idempotent_witness :
  running (start (init DEFAULT_CONFIG)) = true
  /\ start (start (init DEFAULT_CONFIG)) = start (init DEFAULT_CONFIG).
Proof.
  split; [reflexivity|].
  exact (proj1 start_is_idempotent (start (init DEFAULT_CONFIG)) eq_refl).
Defined.

(** [stop] never raises, clears the flag, and leaves the history, the last
    text and the thread list alone. *)
Lemma stop_returns self :
  exists p, stop self = Some p
    /\ running p = false
    /\ history p = history self
    /\ last_text p = last_text self
    /\ threads p = threads self
    /\ text_q p = text_q self ++ [None].
Proof.
  unfold stop. eexists. split; [reflexivity|].
  destruct (put FRAME_Q_MAXSIZE (frame_q (set_running false self)) None);
    cbn; auto.
Qed.

(** C9 at a pipeline that was never started: [stop] raises nothing, but it
    puts its sentinel into both queues, so the state is not unchanged; the
    recognition worker of the next [start] takes the stale sentinel from the
    frame queue and leaves its loop at once. *)
Theorem stop_while_stopped_injects_sentinels :
  forall config,
    running (init config) = false
    /\ frame_q (init config) = []
    /\ text_q (init config) = []
    /\ exists p,
         stop (init config) = Some p
         /\ frame_q p = [None]
         /\ text_q p = [None]
         /\ forall ocr now loc,
              fst (process_iteration ocr now (loc, start p)) = Break.
Proof.
  intros config. repeat split. eexists. split; [reflexivity|]. repeat split.
Qed.

End LifecycleSpec.

(** ** Capture stage *)

Module CaptureSpec.

Import Py PyFacts Config Pipeline.

Lemma configure_keeps self src c :
  releases (configure self src c) = releases c
  /\ isOpened (configure self src c) = isOpened c.
Proof.
  unfold configure. destruct src as [i|w h]; [|auto].
  destruct (isOpened c) eqn:E; [|auto].
  destruct (get (camera (cfg self)) "resolution" (VStr "720p")) as [| | |s];
    cbn; auto.
  repeat (match goal with
          | |- context [match ?x with _ => _ end] => destruct x; cbn; auto
          end).
Qed.

Lemma capture_body_keeps i o st :
  releases (cap (capture_body i o st)) = releases (cap st).
Proof.
  unfold capture_body. destruct (negb (ret o)); [reflexivity|].
  destruct (Qltb _ _); reflexivity.
Qed.

Lemma observe_stop_keeps o st : cap (observe_stop o st) = cap st.
Proof. unfold observe_stop. destruct (stop_requested o); reflexivity. Qed.

(** Leaving the loop releases the source, once, as the last action; the
    loop itself raises nothing. *)
Lemma capture_while_release i obs : forall st e st',
  capture_while i obs st = (e, st') ->
  e <> Raised
  /\ (e = Returned ->
      releases (cap st') = S (releases (cap st))
      /\ isOpened (cap st') = false
      /\ running (pipeline st') = false)
  /\ (e = StillLooping -> releases (cap st') = releases (cap st)).
Proof.
  induction obs as [|o obs IH]; intros st e st'; simpl;
    destruct (running (pipeline st)) eqn:Hrun; intros H.
  - inversion H; subst. repeat split; congruence.
  - inversion H; subst. cbn. rewrite Hrun. repeat split; congruence.
  - apply IH in H. rewrite observe_stop_keeps, capture_body_keeps in H. exact H.
  - inversion H; subst. cbn. rewrite Hrun. repeat split; congruence.
Qed.

Lemma capture_while_forever_release obs : forall st e st',
  capture_while_forever obs st = (e, st') ->
  e <> Raised
  /\ (e = Returned ->
      releases (cap st') = S (releases (cap st))
      /\ isOpened (cap st') = false
      /\ running (pipeline st') = false)
  /\ (e = StillLooping -> releases (cap st') = releases (cap st)).
Proof.
  induction obs as [|o obs IH]; intros st e st'; simpl;
    destruct (running (pipeline st)) eqn:Hrun; intros H.
  - inversion H; subst. repeat split; congruence.
  - inversion H; subst. cbn. rewrite Hrun. repeat split; congruence.
  - apply IH in H. rewrite observe_stop_keeps in H. exact H.
  - inversion H; subst. cbn. rewrite Hrun. repeat split; congruence.
Qed.

(** An interval in seconds is the effective interval of the loop. *)
Lemma capture_interval_seconds self i :
  capture_interval self = Some i -> effective_interval self = Some (Seconds i).
Proof.
  unfold capture_interval.
  destruct (effective_interval self) as [[j|]|]; congruence.
Qed.

Lemma capture_while_stopped i obs st :
  running (pipeline st) = false -> fst (capture_while i obs st) = Returned.
Proof. intros H. destruct obs; simpl; rewrite H; reflexivity. Qed.

(** Once another thread has cleared the flag, the loop is left. *)
Lemma capture_while_exits i obs : forall st,
  existsb stop_requested obs = true ->
  fst (capture_while i obs st) = Returned.
Proof.
  induction obs as [|o obs IH]; intros st; simpl; [discriminate|].
  intros H. destruct (running (pipeline st)) eqn:Hrun; [|reflexivity].
  destruct (stop_requested o) eqn:Ho.
  - apply capture_while_stopped. unfold observe_stop. rewrite Ho. reflexivity.
  - apply IH. exact H.
Qed.

(** C5, as the code has it.  When the source was opened, every return of
    [_capture_loop] has released it, exactly once, and the stage does return
    once the running flag has been cleared; on the fatal path, where the
    source could not be opened, the stage clears the running flag and
    returns without a call of [release]. *)
Theorem capture_releases_opened_source
    (self : AssistivePipeline) (obs : list CapObs) :
  (fst (fst (_capture_loop true obs self)) = Returned ->
   exists c, snd (_capture_loop true obs self) = Some c
             /\ releases c = 1%nat /\ isOpened c = false)
  /\ (forall src i,
        _get_capture_source self = Some src ->
        capture_interval self = Some i ->
        existsb stop_requested obs = true ->
        fst (fst (_capture_loop true obs self)) = Returned)
  /\ (forall src i,
        _get_capture_source self = Some src ->
        capture_interval self = Some i ->
        _capture_loop false obs self
        = (Returned, set_running false self, Some (VideoCapture_new false))).
Proof.
  unfold _capture_loop. split; [|split].
  - destruct (_get_capture_source self) as [src|]; [|discriminate].
    destruct (effective_interval self) as [[i|]|]; [| |discriminate];
      destruct (configure_keeps self src (VideoCapture_new true)) as [Hr Ho];
      rewrite Ho; cbn [VideoCapture_new isOpened negb].
    + destruct (capture_while i obs _) as [e st'] eqn:E. cbn [fst snd].
      intros He. apply capture_while_release in E as (_ & E & _).
      destruct (E He) as (H1 & H2 & _). exists (cap st').
      rewrite H1. cbn [cap]. rewrite Hr. auto.
    + destruct (capture_while_forever obs _) as [e st'] eqn:E. cbn [fst snd].
      intros He. apply capture_while_forever_release in E as (_ & E & _).
      destruct (E He) as (H1 & H2 & _). exists (cap st').
      rewrite H1. cbn [cap]. rewrite Hr. auto.
  - intros src i -> Hi Hstop. rewrite (capture_interval_seconds _ _ Hi).
    destruct (configure_keeps self src (VideoCapture_new true)) as [_ Ho].
    rewrite Ho. cbn [VideoCapture_new isOpened negb].
    pose proof (capture_while_exits i obs
      (mkCapState self (configure self src (VideoCapture_new true)) 0) Hstop) as H.
    destruct (capture_while i obs _) as [e st']. exact H.
  - intros src i -> Hi. rewrite (capture_interval_seconds _ _ Hi).
    destruct (configure_keeps self src (VideoCapture_new false)) as [_ Ho].
    rewrite Ho. cbn [VideoCapture_new isOpened negb].
    replace (configure self src (VideoCapture_new false))
      with (VideoCapture_new false); [reflexivity|].
    destruct src; reflexivity.
Qed.

(** C5 on a run that reads two frames and is then stopped. *)
Lemma capture_releases_witness :
  fst (fst (_capture_loop true sample_capture_run sample_pipeline)) = Returned
  /\ exists c,
       snd (_capture_loop true sample_capture_run sample_pipeline) = Some c
       /\ releases c = 1%nat /\ isOpened c = false.
Proof.
  split; [vm_compute; reflexivity|].
  apply (proj1 (capture_releases_opened_source sample_pipeline sample_capture_run)).
  vm_compute; reflexivity.
Defined.

(** C5 as stated fails on the fatal path: the source does not open, the
    stage clears the running flag and returns, and [release] was not
    called. *)
Lemma fatal_path_returns_without_release :
  running sample_pipeline = true
  /\ _capture_loop false [] sample_pipeline
     = (Returned, set_running false sample_pipeline, Some (VideoCapture_new false))
  /\ released (_capture_loop false [] sample_pipeline) = false.
Proof. vm_compute. repeat split. Qed.

(** An enqueue into a queue of at most one item leaves the new frame
    alone in it, and does not touch the running flag. *)
Lemma push_frame_single fr self :
  (length (frame_q self) <= 1)%nat ->
  frame_q (push_frame fr self) = [Some fr]
  /\ running (push_frame fr self) = running self.
Proof.
  unfold push_frame.
  destruct (frame_q self) as [|y [|z q]]; cbn; intros H; auto; lia.
Qed.

Lemma capture_while_stopped_queue i obs st :
  running (pipeline st) = false ->
  frame_q (pipeline (snd (capture_while i obs st))) = frame_q (pipeline st).
Proof. intros H. destruct obs; simpl; rewrite H; reflexivity. Qed.

(** The loop, run with the interval [i], leaves the queue that a throttle
    of [i] seconds prescribes. *)
Lemma capture_while_throttles i obs : forall st,
  running (pipeline st) = true ->
  (length (frame_q (pipeline st)) <= 1)%nat ->
  frame_q (pipeline (snd (capture_while i obs st)))
  = throttled_queue i (last_push st) (frame_q (pipeline st)) obs.
Proof.
  induction obs as [|o obs IH]; intros st Hrun Hq; simpl; rewrite Hrun;
    [reflexivity|].
  unfold capture_body, Qltb.
  destruct (ret o); cbn [negb andb];
    [destruct (Qle_bool i (now o - last_push st)); cbn [negb]|].
  - destruct (push_frame_single (frame o) (pipeline st) Hq) as [Hp Hr].
    unfold observe_stop. destruct (stop_requested o).
    + rewrite capture_while_stopped_queue by reflexivity. exact Hp.
    + rewrite IH; cbn [pipeline last_push].
      * rewrite Hp. reflexivity.
      * rewrite Hr. exact Hrun.
      * rewrite Hp. cbn. lia.
  - unfold observe_stop. destruct (stop_requested o).
    + rewrite capture_while_stopped_queue by reflexivity. reflexivity.
    + rewrite IH by assumption. reflexivity.
  - unfold observe_stop. destruct (stop_requested o).
    + rewrite capture_while_stopped_queue by reflexivity. reflexivity.
    + rewrite IH by assumption. reflexivity.
Qed.

(** C10.  When the configuration gives the capture interval [x], as a
    number or as a string that [float] reads as [x], the interval
    [_capture_loop] throttles with is [max(0.05, x)]: it is 0.05 when [x]
    is at most 0.05 and [x] otherwise, and the whole run of the stage
    leaves in the frame queue what a throttle of that many seconds
    prescribes: a frame that was read is enqueued exactly when at least
    that much time has passed since the last enqueued one. *)
Theorem capture_interval_is_clamped
    (self : AssistivePipeline) (v : value) (x : Q) :
  ocr (cfg self) !! "capture_interval" = Some v ->
  py_float v = Some x ->
  exists i,
    capture_interval self = Some i
    /\ ((x <= 0.05)%Q -> i = 0.05%Q)
    /\ ((0.05 < x)%Q -> i = x)
    /\ (0.05 <= i)%Q /\ (x <= i)%Q
    /\ (forall obs src,
          _get_capture_source self = Some src ->
          running self = true ->
          (length (frame_q self) <= 1)%nat ->
          frame_q (snd (fst (_capture_loop true obs self)))
          = throttled_queue i 0 (frame_q self) obs).
Proof.
  intros Hv Hx.
  assert (He : effective_interval self = Some (Seconds (py_max2 0.05 x))).
  { unfold effective_interval, get. rewrite Hv.
    change (default (VFloat 0.1) (Some v)) with v.
    unfold py_float in Hx.
    destruct (to_float v) as [[q|b|]|]; try discriminate.
    inversion Hx; subst. reflexivity. }
  assert (Hloop : forall obs src,
            _get_capture_source self = Some src ->
            running self = true ->
            (length (frame_q self) <= 1)%nat ->
            frame_q (snd (fst (_capture_loop true obs self)))
            = throttled_queue (py_max2 0.05 x) 0 (frame_q self) obs).
  { intros obs src Hsrc Hrun Hq. unfold _capture_loop. rewrite Hsrc, He.
    destruct (configure_keeps self src (VideoCapture_new true)) as [_ Ho].
    rewrite Ho. cbn [VideoCapture_new isOpened negb].
    pose proof (capture_while_throttles (py_max2 0.05 x) obs
      (mkCapState self (configure self src (VideoCapture_new true)) 0) Hrun Hq)
      as H.
    destruct (capture_while _ obs _) as [e st']. exact H. }
  exists (py_max2 0.05 x). split.
  { unfold capture_interval. rewrite He. reflexivity. }
  revert Hloop. unfold py_max2.
  destruct (Qltb 0.05 x) eqn:E; intros Hloop.
  - apply Qltb_lt in E. repeat split.
    + intros H. exfalso. exact (Qlt_not_le _ _ E H).
    + apply Qlt_le_weak, E.
    + apply Qle_refl.
    + exact Hloop.
  - apply Qltb_ge in E. repeat split.
    + intros H. exfalso. exact (Qlt_not_le _ _ H E).
    + apply Qle_refl.
    + exact E.
    + exact Hloop.
Qed.

(** C10 at an interval configured as the string "0.01": the stage
    throttles with 0.05 s, and the frame read 0.03 s after the first one is
    not enqueued. *)
Lemma capture_interval_witness :
  exists i,
    capture_interval sample_fast_pipeline = Some i
    /\ i = 0.05%Q
    /\ frame_q (snd (fst (_capture_loop true sample_fast_run sample_fast_pipeline)))
       = [Some 1%nat].
Proof.
  destruct (capture_interval_is_clamped
              sample_fast_pipeline (VStr "0.01") (1 # 100) eq_refl eq_refl)
    as (i & Hi & Hle & _ & _ & _ & Hloop).
  assert (E : i = 0.05%Q) by (apply Hle; vm_compute; discriminate).
  exists i. split; [exact Hi|]. split; [exact E|].
  rewrite (Hloop sample_fast_run (CamIndex 0) eq_refl eq_refl (le_S _ _ (le_n 0))).
  rewrite E. reflexivity.
Defined.

End CaptureSpec.

(** ** Recognition stage: debounce and history *)

Module RecognitionSpec.

Import Py PyFacts Config Pipeline.

Lemma process_frame_rejected res now loc self :
  accepts loc res now = false ->
  process_frame res now (loc, self) = (count_frame loc, self).
Proof.
  unfold accepts, process_frame, too_short, is_duplicate, count_frame.
  destruct loc as [ml mc lt ltime fc].
  cbn [min_len min_conf l_last_text l_last_time frame_count].
  destruct (negb (truthy _) || _); [reflexivity|].
  destruct (Qltb _ mc); [reflexivity|].
  destruct (String.eqb _ lt && _); [reflexivity | discriminate].
Qed.

Lemma process_frame_accepted res now loc self :
  accepts loc res now = true ->
  process_frame res now (loc, self) =
    match record_history self (entry_of (res, now)) with
    | (self1, None) => (count_frame loc, self1)
    | (self1, Some _) =>
        (remember (strip (OcrEngine.text res)) now (count_frame loc),
         set_text_q (text_q self1 ++ [Some (strip (OcrEngine.text res))])
                    (set_last_text (strip (OcrEngine.text res)) self1))
    end.
Proof.
  unfold accepts, process_frame, too_short, is_duplicate, count_frame.
  destruct loc as [ml mc lt ltime fc].
  cbn [min_len min_conf l_last_text l_last_time frame_count].
  destruct (negb (truthy _) || _); [discriminate|].
  destruct (Qltb _ mc); [discriminate|].
  destruct (String.eqb _ lt && _); [discriminate|]. intros _.
  unfold entry_of. cbn [fst snd].
  destruct (record_history self _) as [self1 [[]|]]; reflexivity.
Qed.

Lemma record_history_int self e m :
  get (app (cfg self)) "max_history" (VInt 50) = VInt m ->
  record_history self e = (set_history (evict m (history self ++ [e])) self, Some tt).
Proof.
  intros H. unfold record_history, evict. rewrite H. cbn [int_gt].
  destruct (_ >? m); reflexivity.
Qed.

Lemma record_history_cfg self e : cfg (fst (record_history self e)) = cfg self.
Proof.
  unfold record_history. destruct (int_gt _ _) as [[]|]; reflexivity.
Qed.

Lemma process_frame_cfg res now loc self :
  cfg (snd (process_frame res now (loc, self))) = cfg self.
Proof.
  destruct (accepts loc res now) eqn:E.
  - rewrite (process_frame_accepted _ _ _ _ E).
    pose proof (record_history_cfg self (entry_of (res, now))) as H.
    destruct (record_history self _) as [self1 [[]|]]; exact H.
  - rewrite (process_frame_rejected _ _ _ _ E). reflexivity.
Qed.

(** An accepted frame, for an integer bound: the entry is appended and the
    oldest one dropped if the list got too long; the text is remembered and
    queued for speech. *)
Lemma process_frame_accepted_int res now loc self m :
  accepts loc res now = true ->
  get (app (cfg self)) "max_history" (VInt 50) = VInt m ->
  process_frame res now (loc, self) =
    (remember (strip (OcrEngine.text res)) now (count_frame loc),
     set_text_q (text_q self ++ [Some (strip (OcrEngine.text res))])
       (set_last_text (strip (OcrEngine.text res))
          (set_history (evict m (history self ++ [entry_of (res, now)])) self))).
Proof.
  intros Ha Hm. rewrite (process_frame_accepted _ _ _ _ Ha).
  rewrite (record_history_int _ _ _ Hm). reflexivity.
Qed.

Lemma evict_keep_newest m h e :
  0 <= m -> (length h <= Z.to_nat m)%nat ->
  evict m (h ++ [e]) = keep_newest m (h ++ [e]).
Proof.
  intros Hm Hlen. unfold evict, keep_newest.
  assert (Hl : length (h ++ [e]) = S (length h)).
  { rewrite length_app. cbn. lia. }
  rewrite Hl. destruct (Z.gtb_spec (Z.of_nat (S (length h))) m) as [Hgt|Hle].
  - replace (S (length h) - Z.to_nat m)%nat with 1%nat by lia.
    destruct (h ++ [e]); reflexivity.
  - replace (S (length h) - Z.to_nat m)%nat with 0%nat by lia. reflexivity.
Qed.

Lemma keep_newest_length m h : (length (keep_newest m h) <= Z.to_nat m)%nat.
Proof. unfold keep_newest. rewrite length_skipn. lia. Qed.

Lemma keep_newest_short m h :
  (length h <= Z.to_nat m)%nat -> keep_newest m h = h.
Proof.
  intros H. unfold keep_newest.
  replace (length h - Z.to_nat m)%nat with 0%nat by lia. reflexivity.
Qed.

(** Evicting early or late gives the same newest entries. *)
Lemma keep_newest_app m h l :
  keep_newest m (keep_newest m h ++ l) = keep_newest m (h ++ l).
Proof.
  unfold keep_newest.
  rewrite !length_app, length_skipn, !skipn_app, skipn_skipn, length_skipn.
  f_equal; f_equal; lia.
Qed.

(** One step keeps the history within an integer bound. *)
Lemma process_frame_history_bound res now loc self m :
  get (app (cfg self)) "max_history" (VInt 50) = VInt m ->
  0 <= m ->
  (length (history self) <= Z.to_nat m)%nat ->
  (length (history (snd (process_frame res now (loc, self)))) <= Z.to_nat m)%nat.
Proof.
  intros Hm Hpos Hlen. destruct (accepts loc res now) eqn:E.
  - rewrite (process_frame_accepted_int _ _ _ _ _ E Hm). cbn [snd history set_text_q
      set_last_text set_history].
    rewrite evict_keep_newest by assumption. apply keep_newest_length.
  - rewrite (process_frame_rejected _ _ _ _ E). exact Hlen.
Qed.

Lemma process_frames_history_bound inputs : forall loc self m,
  get (app (cfg self)) "max_history" (VInt 50) = VInt m ->
  0 <= m ->
  (length (history self) <= Z.to_nat m)%nat ->
  (length (history (snd (process_frames inputs (loc, self)))) <= Z.to_nat m)%nat.
Proof.
  induction inputs as [|[res now] rest IH]; intros loc self m Hm Hpos Hlen;
    [exact Hlen|].
  cbn [process_frames].
  pose proof (process_frame_history_bound res now loc self m Hm Hpos Hlen) as H1.
  pose proof (process_frame_cfg res now loc self) as H2.
  destruct (process_frame res now (loc, self)) as [loc' self'].
  cbn [snd] in *. apply IH with (m := m); [rewrite H2; exact Hm | exact Hpos | exact H1].
Qed.

(** A run of accepted frames leaves the newest entries, in insertion
    order, and queues every text. *)
Lemma process_frames_accepted inputs : forall loc self m,
  get (app (cfg self)) "max_history" (VInt 50) = VInt m ->
  0 <= m ->
  (length (history self) <= Z.to_nat m)%nat ->
  all_accepted inputs (loc, self) = true ->
  history (snd (process_frames inputs (loc, self)))
  = keep_newest m (history self ++ map entry_of inputs)
  /\ text_q (snd (process_frames inputs (loc, self)))
     = text_q self ++ map (fun i => Some (text (entry_of i))) inputs.
Proof.
  induction inputs as [|[res now] rest IH]; intros loc self m Hm Hpos Hlen Hacc.
  - cbn. rewrite !app_nil_r. split; [|reflexivity].
    symmetry. apply keep_newest_short. exact Hlen.
  - cbn [all_accepted fst] in Hacc. apply andb_prop in Hacc as [Ha Hrest].
    cbn [process_frames].
    rewrite (process_frame_accepted_int _ _ _ _ _ Ha Hm) in *.
    set (self' := set_text_q _ _) in *.
    assert (Hh : history self' = keep_newest m (history self ++ [entry_of (res, now)])).
    { subst self'. cbn. apply evict_keep_newest; assumption. }
    destruct (IH (remember (strip (OcrEngine.text res)) now (count_frame loc))
                 self' m) as [IH1 IH2]; try assumption.
    + rewrite Hh. apply keep_newest_length.
    + rewrite IH1, IH2, Hh, keep_newest_app. subst self'. cbn.
      rewrite <- !app_assoc. auto.
Qed.

(** C4.  With an integer [max_history] that is not negative, the history
    never grows beyond it, whatever frames arrive; and a run of accepted
    frames on an empty history leaves the newest [max_history] entries in
    insertion order: after [max_history + 5] of them the history holds
    [max_history] entries, all but the oldest five. *)
Theorem history_bounded_oldest_evicted :
  (forall inputs loc self m,
      get (app (cfg self)) "max_history" (VInt 50) = VInt m ->
      0 <= m ->
      Z.of_nat (length (history self)) <= m ->
      Z.of_nat (length (history (snd (process_frames inputs (loc, self))))) <= m)
  /\ (forall inputs loc self m,
        get (app (cfg self)) "max_history" (VInt 50) = VInt m ->
        0 <= m ->
        history self = [] ->
        all_accepted inputs (loc, self) = true ->
        history (snd (process_frames inputs (loc, self)))
        = keep_newest m (map entry_of inputs)
        /\ (Z.of_nat (length inputs) = m + 5 ->
            history (snd (process_frames inputs (loc, self)))
            = skipn 5 (map entry_of inputs)
            /\ Z.of_nat (length (history (snd (process_frames inputs (loc, self)))))
               = m)).
Proof.
  split.
  - intros inputs loc self m Hm Hpos Hlen.
    pose proof (process_frames_history_bound inputs loc self m Hm Hpos) as H. lia.
  - intros inputs loc self m Hm Hpos Hempty Hacc.
    destruct (process_frames_accepted inputs loc self m Hm Hpos) as [H _];
      [rewrite Hempty; cbn; lia | exact Hacc |].
    rewrite Hempty, app_nil_l in H. split; [exact H|].
    intros Hn. rewrite H. unfold keep_newest. rewrite length_map.
    replace (length inputs - Z.to_nat m)%nat with 5%nat by lia.
    split; [reflexivity|]. rewrite length_skipn, length_map. lia.
Qed.

(** C4 with [max_history = 2] and seven accepted frames. *)
Lemma history_bounded_witness :
  history (snd (process_frames sample_frames
                  (sample_locals,
                   init (with_app "max_history" (VInt 2) DEFAULT_CONFIG))))
  = skipn 5 (map entry_of sample_frames)
  /\ Z.of_nat (length (history (snd (process_frames sample_frames
                  (sample_locals,
                   init (with_app "max_history" (VInt 2) DEFAULT_CONFIG))))))
     = 2.
Proof.
  apply (proj2 history_bounded_oldest_evicted sample_frames sample_locals
           (init (with_app "max_history" (VInt 2) DEFAULT_CONFIG)) 2).
  - vm_compute; reflexivity.
  - lia.
  - reflexivity.
  - vm_compute; reflexivity.
  - reflexivity.
Defined.

Lemma accepts_intro loc res now :
  too_short loc (strip (OcrEngine.text res)) = false ->
  (min_conf loc <= OcrEngine.confidence res)%Q ->
  is_duplicate loc (strip (OcrEngine.text res)) now = false ->
  accepts loc res now = true.
Proof.
  intros H1 H2 H3. unfold accepts. rewrite H1, H3.
  rewrite (proj2 (Qltb_ge _ _) H2). reflexivity.
Qed.

Lemma is_duplicate_within loc t now :
  t = l_last_text loc -> (now - l_last_time loc < DEBOUNCE)%Q ->
  is_duplicate loc t now = true.
Proof.
  intros -> H. unfold is_duplicate. rewrite String.eqb_refl.
  apply Qltb_lt in H. rewrite H. reflexivity.
Qed.

Lemma is_duplicate_after loc t now :
  (DEBOUNCE <= now - l_last_time loc)%Q -> is_duplicate loc t now = false.
Proof.
  intros H. unfold is_duplicate. apply Qltb_ge in H. rewrite H.
  apply andb_false_r.
Qed.

Lemma is_duplicate_other loc t now :
  t <> l_last_text loc -> is_duplicate loc t now = false.
Proof.
  intros H. unfold is_duplicate.
  destruct (String.eqb_spec t (l_last_text loc)); [contradiction | reflexivity].
Qed.

(** A repeat inside the window changes nothing. *)
Lemma repeat_within_window_suppressed res now loc self :
  strip (OcrEngine.text res) = l_last_text loc ->
  (now - l_last_time loc < DEBOUNCE)%Q ->
  suppressed res now (loc, self).
Proof.
  intros Ht Hw. unfold suppressed. cbn [fst snd].
  apply process_frame_rejected. unfold accepts.
  rewrite (is_duplicate_within _ _ _ Ht Hw). cbn. apply andb_false_r.
Qed.

(** An accepted frame is never left without a trace. *)
Lemma accepted_not_suppressed res now loc self :
  accepts loc res now = true -> ~ suppressed res now (loc, self).
Proof.
  intros Ha. unfold suppressed. cbn [fst snd].
  rewrite (process_frame_accepted _ _ _ _ Ha). unfold record_history.
  destruct (int_gt _ _) as [[]|]; intros H.
  - apply (f_equal (fun st => length (text_q (snd st)))) in H. cbn in H.
    rewrite length_app in H. cbn in H. lia.
  - apply (f_equal (fun st => length (text_q (snd st)))) in H. cbn in H.
    rewrite length_app in H. cbn in H. lia.
  - apply (f_equal (fun st => length (history (snd st)))) in H. cbn in H.
    rewrite length_app in H. cbn in H. lia.
Qed.

(** The first frame of a new worker is not a repeat. *)
Lemma first_frame_accepted loc0 self res now :
  process_locals self = Some loc0 ->
  too_short loc0 (strip (OcrEngine.text res)) = false ->
  (min_conf loc0 <= OcrEngine.confidence res)%Q ->
  accepts loc0 res now = true.
Proof.
  intros Hloc Hshort Hconf. apply accepts_intro; try assumption.
  apply is_duplicate_other. unfold process_locals in Hloc.
  destruct (py_int _); [|discriminate]. destruct (py_float _); [|discriminate].
  inversion Hloc; subst. cbn [l_last_text].
  unfold too_short in Hshort. apply orb_false_elim in Hshort as [Hshort _].
  destruct (strip (OcrEngine.text res)); [discriminate | congruence].
Qed.

(** C3.  A frame whose text equals the last accepted text and arrives less
    than [DEBOUNCE] seconds after it is suppressed: no history entry, no
    push to the speech queue.  A repeat that arrives later (and meets the
    thresholds) is accepted: one history entry, one push.  So on a new
    pipeline the same text submitted twice within the window yields one
    history entry and one push, and a third submission after the window is
    accepted. *)
Theorem debounce_suppresses_repeats :
  (forall res now loc self,
      strip (OcrEngine.text res) = l_last_text loc ->
      (now - l_last_time loc < DEBOUNCE)%Q ->
      process_frame res now (loc, self) = (count_frame loc, self))
  /\ (forall res now loc self m,
        strip (OcrEngine.text res) = l_last_text loc ->
        (DEBOUNCE <= now - l_last_time loc)%Q ->
        too_short loc (strip (OcrEngine.text res)) = false ->
        (min_conf loc <= OcrEngine.confidence res)%Q ->
        get (app (cfg self)) "max_history" (VInt 50) = VInt m ->
        history (snd (process_frame res now (loc, self)))
        = evict m (history self ++ [entry_of (res, now)])
        /\ text_q (snd (process_frame res now (loc, self)))
           = text_q self ++ [Some (strip (OcrEngine.text res))]
        /\ l_last_time (fst (process_frame res now (loc, self))) = now)
  /\ (forall config loc0 m res1 res2 res3 now1 now2 now3,
        process_locals (init config) = Some loc0 ->
        get (app config) "max_history" (VInt 50) = VInt m ->
        1 <= m ->
        strip (OcrEngine.text res2) = strip (OcrEngine.text res1) ->
        strip (OcrEngine.text res3) = strip (OcrEngine.text res1) ->
        too_short loc0 (strip (OcrEngine.text res1)) = false ->
        (min_conf loc0 <= OcrEngine.confidence res1)%Q ->
        (min_conf loc0 <= OcrEngine.confidence res3)%Q ->
        (now2 - now1 < DEBOUNCE)%Q ->
        (DEBOUNCE <= now3 - now1)%Q ->
        history (snd (process_frames [(res1, now1); (res2, now2)] (loc0, init config)))
        = [entry_of (res1, now1)]
        /\ text_q (snd (process_frames [(res1, now1); (res2, now2)] (loc0, init config)))
           = [Some (strip (OcrEngine.text res1))]
        /\ history (snd (process_frames [(res1, now1); (res2, now2); (res3, now3)]
                           (loc0, init config)))
           = evict m [entry_of (res1, now1); entry_of (res3, now3)]
        /\ text_q (snd (process_frames [(res1, now1); (res2, now2); (res3, now3)]
                          (loc0, init config)))
           = [Some (strip (OcrEngine.text res1)); Some (strip (OcrEngine.text res1))]).
Proof.
  split; [|split].
  - intros res now loc self Ht Hw.
    exact (repeat_within_window_suppressed res now loc self Ht Hw).
  - intros res now loc self m Ht Hw Hshort Hconf Hm.
    rewrite (process_frame_accepted_int res now loc self m); [cbn; auto| |exact Hm].
    apply accepts_intro; try assumption. apply is_duplicate_after. exact Hw.
  - intros config loc0 m res1 res2 res3 now1 now2 now3
           Hloc Hm Hpos Ht2 Ht3 Hshort Hc1 Hc3 Hw2 Hw3.
    pose proof (first_frame_accepted loc0 (init config) res1 now1 Hloc Hshort Hc1)
      as Ha1.
    cbn [process_frames].
    rewrite (process_frame_accepted_int res1 now1 loc0 (init config) m Ha1 Hm).
    set (loc1 := remember _ now1 _). set (self1 := set_text_q _ _).
    assert (He : evict m [entry_of (res1, now1)] = [entry_of (res1, now1)]).
    { unfold evict. cbn [length]. destruct (Z.gtb_spec (Z.of_nat 1) m); [lia|reflexivity]. }
    assert (H2 : process_frame res2 now2 (loc1, self1) = (count_frame loc1, self1)).
    { apply repeat_within_window_suppressed; subst loc1; cbn; assumption. }
    rewrite H2.
    assert (Ha3 : accepts (count_frame loc1) res3 now3 = true).
    { apply accepts_intro; subst loc1; cbn; try assumption.
      - rewrite Ht3. exact Hshort.
      - apply is_duplicate_after. cbn. exact Hw3. }
    rewrite (process_frame_accepted_int res3 now3 (count_frame loc1) self1 m Ha3);
      [|subst self1; cbn; exact Hm].
    subst self1. cbn. rewrite He, Ht3. auto.
Qed.

(** C3 on the default configuration: "hello" at 10 s, 11 s and 12 s. *)
Lemma debounce_witness :
  history (snd (process_frames [(sample_result, 10%Q); (sample_result, 11%Q)]
                  (sample_locals, init DEFAULT_CONFIG)))
  = [entry_of (sample_result, 10%Q)]
  /\ text_q (snd (process_frames [(sample_result, 10%Q); (sample_result, 11%Q)]
                    (sample_locals, init DEFAULT_CONFIG)))
     = [Some "hello"]
  /\ history (snd (process_frames
                     [(sample_result, 10%Q); (sample_result, 11%Q); (sample_result, 12%Q)]
                     (sample_locals, init DEFAULT_CONFIG)))
     = [entry_of (sample_result, 10%Q); entry_of (sample_result, 12%Q)]
  /\ text_q (snd (process_frames
                    [(sample_result, 10%Q); (sample_result, 11%Q); (sample_result, 12%Q)]
                    (sample_locals, init DEFAULT_CONFIG)))
     = [Some "hello"; Some "hello"].
Proof.
  apply (proj2 (proj2 debounce_suppresses_repeats)
           DEFAULT_CONFIG sample_locals 50 sample_result sample_result sample_result
           10%Q 11%Q 12%Q);
    try reflexivity; try lia; vm_compute; congruence.
Defined.

(** The recognition worker reads two entries of the "ocr" section and no
    other. *)
Lemma process_locals_other_key config key v :
  key <> "min_text_len" -> key <> "min_confidence" ->
  process_locals (init (with_ocr key v config)) = process_locals (init config).
Proof.
  intros H1 H2. unfold process_locals, with_ocr, get. cbn [cfg init ocr].
  rewrite !lookup_insert_ne by assumption. reflexivity.
Qed.

(** C7, as the code has it.  The window of the duplicate check is the
    constant 1.5 s: whatever the configuration holds, a repeat of the last
    accepted text that meets the thresholds is suppressed exactly when it
    arrives less than 1.5 s after it; an additional configuration entry,
    such as a debounce window, changes neither the worker's local settings
    nor this test. *)
Theorem debounce_window_is_constant :
  DEBOUNCE = 1.5%Q
  /\ (forall res now loc self,
        strip (OcrEngine.text res) = l_last_text loc ->
        too_short loc (strip (OcrEngine.text res)) = false ->
        (min_conf loc <= OcrEngine.confidence res)%Q ->
        (suppressed res now (loc, self) <-> (now - l_last_time loc < 1.5)%Q))
  /\ (forall config key v,
        key <> "min_text_len" -> key <> "min_confidence" ->
        process_locals (init (with_ocr key v config)) = process_locals (init config)).
Proof.
  split; [reflexivity|]. split; [|exact process_locals_other_key].
  intros res now loc self Ht Hshort Hconf. split.
  - intros Hs. destruct (Qlt_le_dec (now - l_last_time loc) 1.5) as [Hlt|Hge];
      [exact Hlt|].
    exfalso. apply (accepted_not_suppressed res now loc self); [|exact Hs].
    apply accepts_intro; try assumption. apply is_duplicate_after. exact Hge.
  - intros Hlt. apply repeat_within_window_suppressed; assumption.
Qed.

(** C7 for "hello" repeated one second after it was accepted. *)
Lemma debounce_window_witness :
  suppressed sample_result 11%Q
    (remember "hello" 10%Q sample_locals, init DEFAULT_CONFIG).
Proof.
  apply (proj1 (proj2 debounce_window_is_constant) sample_result 11%Q
           (remember "hello" 10%Q sample_locals) (init DEFAULT_CONFIG)).
  - reflexivity.
  - reflexivity.
  - vm_compute; congruence.
  - vm_compute; congruence.
Defined.

(** C7 as stated fails: with a debounce window of 5 s in the configuration
    a repeat after 2 s is still accepted, and with a window of 0.5 s a
    repeat after 1 s is still suppressed. *)
Lemma configured_debounce_window_is_ignored :
  (ocr (with_ocr "debounce_window" (VFloat 5) DEFAULT_CONFIG) !! "debounce_window"
   = Some (VFloat 5)
   /\ process_locals (init (with_ocr "debounce_window" (VFloat 5) DEFAULT_CONFIG))
      = Some sample_locals
   /\ text_q (snd (process_frames [(sample_result, 10%Q); (sample_result, 12%Q)]
                     (sample_locals,
                      init (with_ocr "debounce_window" (VFloat 5) DEFAULT_CONFIG))))
      = [Some "hello"; Some "hello"])
  /\ (ocr (with_ocr "debounce_window" (VFloat 0.5) DEFAULT_CONFIG) !! "debounce_window"
      = Some (VFloat 0.5)
      /\ text_q (snd (process_frames [(sample_result, 10%Q); (sample_result, 11%Q)]
                        (sample_locals,
                         init (with_ocr "debounce_window" (VFloat 0.5) DEFAULT_CONFIG))))
         = [Some "hello"]).
Proof. vm_compute. repeat split. Qed.

End RecognitionSpec.

(** ** More on the recognition backends *)

Module OcrExtras.

Import Py PyFacts OcrEngine OcrEngineSpec OcrBackends.

(** A string is clean at its start when it does not begin with
    whitespace. *)
Lemma lstrip_fixed s :
  match s with String c _ => isspace c = false | EmptyString => True end ->
  lstrip s = s.
Proof. destruct s as [|c s]; simpl; [reflexivity|]. intros ->. reflexivity. Qed.

Lemma lstrip_clean s :
  match lstrip s with String c _ => isspace c = false | EmptyString => True end.
Proof.
  induction s as [|c s IH]; simpl; [exact I|].
  destruct (isspace c) eqn:E; [exact IH | exact E].
Qed.

Lemma rstrip_keeps_clean s :
  match s with String c _ => isspace c = false | EmptyString => True end ->
  match rstrip s with String c _ => isspace c = false | EmptyString => True end.
Proof.
  destruct s as [|c s]; simpl; [auto|]. intros Hc.
  destruct (rstrip s); [rewrite Hc|]; exact Hc.
Qed.

Lemma rstrip_idempotent s : rstrip (rstrip s) = rstrip s.
Proof.
  induction s as [|c s IH]; simpl; [reflexivity|].
  destruct (rstrip s) as [|d r] eqn:E.
  - destruct (isspace c) eqn:Ec; simpl; [reflexivity|]. rewrite Ec. reflexivity.
  - change (rstrip (String c (String d r))) with
      (match rstrip (String d r) with
       | EmptyString => if isspace c then EmptyString else String c EmptyString
       | r' => String c r'
       end).
    rewrite IH. reflexivity.
Qed.

Lemma strip_idempotent s : strip (strip s) = strip s.
Proof.
  unfold strip.
  rewrite (lstrip_fixed (rstrip (lstrip s)))
    by apply rstrip_keeps_clean, lstrip_clean.
  apply rstrip_idempotent.
Qed.

(** X6.  Whitespace around a text does not matter to the plausibility
    filter: it gives the same answer on a text and on the stripped text. *)
Theorem plausibility_ignores_surrounding_whitespace (self : OCREngine) (t : string) :
  _is_plausible_text self (strip t) = _is_plausible_text self t.
Proof.
  unfold _is_plausible_text. rewrite strip_idempotent.
  destruct t as [|c t]; [reflexivity|].
  cbn [truthy negb]. destruct (strip (String c t)) as [|d r] eqn:E;
    [|reflexivity].
  cbn [truthy negb any]. destruct (len "" <? min_text_len self); reflexivity.
Qed.

Lemma key_gt_irrefl k : key_gt k k = false.
Proof.
  unfold key_gt. rewrite Z.eqb_refl. cbn [negb].
  rewrite (proj2 (Qeq_bool_iff _ _) (Qeq_refl _)). reflexivity.
Qed.

Lemma max_from_app b l1 l2 :
  max_from b (l1 ++ l2) = max_from (max_from b l1) l2.
Proof. revert b. induction l1 as [|y l1 IH]; intros b; simpl; auto. Qed.

Lemma max_from_unbeaten b l :
  (forall y, In y l -> key_gt (fusion_key y) (fusion_key b) = false) ->
  max_from b l = b.
Proof.
  induction l as [|y l IH]; intros H; simpl; [reflexivity|].
  rewrite (H y) by (left; reflexivity). apply IH.
  intros z Hz. apply H. right. exact Hz.
Qed.

(** X1.  Ties go to the backend that ran first: a candidate that strictly
    beats every earlier one and is not strictly beaten by a later one is
    the one selected; so of two candidates with the same length and
    confidence the first is kept. *)
Theorem fusion_keeps_first_of_equals :
  (forall (l1 : list candidate) (x : candidate) (l2 : list candidate),
      (forall y, In y l1 -> key_gt (fusion_key x) (fusion_key y) = true) ->
      (forall y, In y l2 -> key_gt (fusion_key y) (fusion_key x) = false) ->
      py_max (l1 ++ x :: l2) = Some x)
  /\ (forall a b : candidate, fusion_key a = fusion_key b -> py_max [a; b] = Some a).
Proof.
  assert (H : forall l1 x l2,
      (forall y, In y l1 -> key_gt (fusion_key x) (fusion_key y) = true) ->
      (forall y, In y l2 -> key_gt (fusion_key y) (fusion_key x) = false) ->
      py_max (l1 ++ x :: l2) = Some x).
  { intros [|b l1] x l2 H1 H2; cbn [app py_max]; f_equal.
    - apply max_from_unbeaten. exact H2.
    - rewrite max_from_app. cbn [max_from].
      rewrite (H1 (max_from b l1)) by apply max_from_In.
      apply max_from_unbeaten. exact H2. }
  split; [exact H|].
  intros a b Hk. apply (H [] a [b]).
  - intros y [].
  - intros y [<-|[]]. rewrite Hk. apply key_gt_irrefl.
Qed.

(** X1 on two candidates of three characters and confidence 0.6. *)
Lemma fusion_keeps_first_witness :
  py_max [(mkOCRResult "abc" [] 0.6 "tesseract", 0.6%Q);
          (mkOCRResult "xyz" [] 0.6 "paddle", 0.6%Q)]
  = Some (mkOCRResult "abc" [] 0.6 "tesseract", 0.6%Q).
Proof.
  apply (proj2 fusion_keeps_first_of_equals). reflexivity.
Defined.

Lemma collect_candidates_In c outputs :
  In c (collect_candidates outputs) <->
  In c outputs /\ truthy (text (fst c)) = true.
Proof. unfold collect_candidates. apply filter_In. Qed.

(** The result of [extract_text] is empty or a non-empty answer that
    meets the thresholds and that no other non-empty answer beats: each
    has a shorter text, or a text of the same length and a confidence that
    is not higher. *)
Lemma extract_text_shape (self : OCREngine) (outputs : list candidate) :
  extract_text self outputs = empty_result
  \/ exists c,
       In c outputs
       /\ extract_text self outputs = fst c
       /\ truthy (text (fst c)) = true
       /\ min_text_len self <= len (text (fst c))
       /\ (min_confidence self <= snd c)%Q
       /\ forall c', In c' outputs -> truthy (text (fst c')) = true ->
            len (text (fst c')) < len (text (fst c))
            \/ (len (text (fst c')) = len (text (fst c))
                /\ (snd c' <= snd c)%Q).
Proof.
  unfold extract_text.
  destruct (collect_candidates outputs) as [|c0 l] eqn:E; [left; reflexivity|].
  set (best := max_from c0 l).
  assert (Hin : In best (c0 :: l)) by apply max_from_In.
  assert (Hub : forall rc, In rc (c0 :: l) ->
                  len (text (fst rc)) < len (text (fst best))
                  \/ (len (text (fst rc)) = len (text (fst best))
                      /\ (snd rc <= snd best)%Q))
    by (intros rc Hrc; exact (max_from_upper c0 l rc Hrc)).
  rewrite (fuse_py_max self (c0 :: l) best eq_refl).
  destruct (truthy (text (fst best))) eqn:Ht; [|left; reflexivity].
  destruct (Z.leb_spec (min_text_len self) (len (text (fst best))));
    [|left; reflexivity].
  destruct (Qle_bool (min_confidence self) (snd best)) eqn:Hq;
    [|left; reflexivity].
  right. exists best. rewrite <- E in Hin, Hub.
  apply collect_candidates_In in Hin as [Hin _].
  repeat split; auto.
  - apply Qle_bool_iff. exact Hq.
  - intros c' Hc' Ht'. apply Hub. apply collect_candidates_In. auto.
Qed.

(** X2.  [extract_text] returns either the empty result or the result of a
    backend whose text is not empty, which meets both thresholds and which
    no other non-empty answer beats (each has a shorter text, or a text of
    the same length and a confidence that is not higher).  In particular,
    when an answer that no other non-empty answer beats is below the
    confidence threshold, nothing is returned, whatever the other answers
    are. *)
Theorem extract_text_returns_best_or_nothing :
  (forall (self : OCREngine) (outputs : list candidate),
      extract_text self outputs = empty_result
      \/ exists c,
           In c outputs
           /\ extract_text self outputs = fst c
           /\ truthy (text (fst c)) = true
           /\ min_text_len self <= len (text (fst c))
           /\ (min_confidence self <= snd c)%Q
           /\ forall c', In c' outputs -> truthy (text (fst c')) = true ->
                len (text (fst c')) < len (text (fst c))
                \/ (len (text (fst c')) = len (text (fst c))
                    /\ (snd c' <= snd c)%Q))
  /\ (forall (self : OCREngine) (outputs : list candidate) (c : candidate),
        In c outputs ->
        truthy (text (fst c)) = true ->
        (forall c', In c' outputs -> truthy (text (fst c')) = true ->
           len (text (fst c')) < len (text (fst c))
           \/ (len (text (fst c')) = len (text (fst c))
               /\ (snd c' <= snd c)%Q)) ->
        (snd c < min_confidence self)%Q ->
        extract_text self outputs = empty_result).
Proof.
  split; [exact extract_text_shape|].
  intros self outputs c Hin Ht Hmax Hlt.
  destruct (extract_text_shape self outputs)
    as [H | (b & Hb & _ & Htb & _ & Hconf & Hub)]; [exact H|].
  exfalso.
  destruct (Hmax b Hb Htb) as [Hl | [Hl Hq]];
    destruct (Hub c Hin Ht) as [Hl' | [Hl' Hq']]; try lia.
  apply (Qlt_not_le _ _ Hlt). eapply Qle_trans; eassumption.
Qed.

(** X2 where a long answer of low confidence hides a shorter, confident
    one. *)
Lemma extract_text_masking_witness :
  extract_text (mkOCREngine 0.5 3)
    [(mkOCRResult "stop" [] 0.9 "paddle", 0.9%Q);
     (mkOCRResult "st0p s1gn" [] 0.3 "easyocr", 0.3%Q)]
  = empty_result.
Proof.
  apply (proj2 extract_text_returns_best_or_nothing (mkOCREngine 0.5 3) _
           (mkOCRResult "st0p s1gn" [] 0.3 "easyocr", 0.3%Q)).
  - right. left. reflexivity.
  - reflexivity.
  - intros c' [<- | [<- | []]] _.
    + left. vm_compute. reflexivity.
    + right. split; [reflexivity | apply Qle_refl].
  - vm_compute. reflexivity.
Defined.

Lemma plausible_truthy self t : _is_plausible_text self t = true -> truthy t = true.
Proof. unfold _is_plausible_text. destruct (truthy t); [auto | discriminate]. Qed.

Lemma plausible_long_enough self t :
  _is_plausible_text self t = true -> min_text_len self <= len (strip t).
Proof.
  unfold _is_plausible_text. destruct (truthy t); [|discriminate]. cbn [negb].
  destruct (Z.ltb_spec (len (strip t)) (min_text_len self)); [discriminate|lia].
Qed.

Lemma tesseract_estimated self available raw :
  text (fst (_ocr_tesseract self available raw)) = ""
  \/ estimated self (_ocr_tesseract self available raw).
Proof.
  unfold _ocr_tesseract. destruct available; [|left; reflexivity].
  destruct raw as [out|]; [|left; reflexivity]. cbn [negb].
  destruct (negb (truthy (strip out)) || _); [left; reflexivity|].
  destruct (_is_plausible_text self (strip out)) eqn:Hp; [|left; reflexivity].
  right. unfold estimated. cbn [negb fst snd text confidence].
  rewrite strip_idempotent.
  destruct (_ >? 2); auto.
Qed.

Lemma trocr_estimated self loaded raw :
  text (fst (_ocr_trocr self loaded raw)) = ""
  \/ estimated self (_ocr_trocr self loaded raw).
Proof.
  unfold _ocr_trocr. destruct loaded; [|left; reflexivity].
  destruct raw as [out|]; [|left; reflexivity]. cbn [negb].
  destruct (truthy (strip out)); [|left; reflexivity].
  destruct (_is_plausible_text self (strip out)) eqn:Hp; [|left; reflexivity].
  right. unfold estimated. cbn [negb orb fst snd text confidence].
  rewrite strip_idempotent. auto.
Qed.

Lemma tesseract_wrapper_shape self available raw :
  engine (fst (_ocr_tesseract self available raw)) = "tesseract".
Proof.
  unfold _ocr_tesseract. destruct available; [|reflexivity].
  destruct raw as [out|]; [|reflexivity]. cbn [negb].
  destruct (_ || _); [reflexivity|].
  destruct (negb _); reflexivity.
Qed.

Lemma trocr_wrapper_shape self loaded raw :
  engine (fst (_ocr_trocr self loaded raw)) = "trocr".
Proof.
  unfold _ocr_trocr. destruct loaded; [|reflexivity].
  destruct raw as [out|]; [|reflexivity]. cbn [negb].
  destruct (_ || _); reflexivity.
Qed.

(** X3.  The Tesseract wrapper never raises: without the library, or when
    the recognizer raises, it answers the empty candidate; otherwise its
    answer is empty or the stripped output, which then passes the
    plausibility filter and is at least [min_text_len] long, with
    confidence 0.7 for more than two words and 0.6 otherwise. *)
Theorem tesseract_wrapper_postcondition (self : OCREngine) (available : bool)
    (raw : call string) :
  engine (fst (_ocr_tesseract self available raw)) = "tesseract"
  /\ confidence (fst (_ocr_tesseract self available raw))
     = snd (_ocr_tesseract self available raw)
  /\ (available = false \/ raw = Throws ->
      _ocr_tesseract self available raw = no_candidate "tesseract")
  /\ (_ocr_tesseract self available raw = no_candidate "tesseract"
      \/ exists out,
           raw = Gives out
           /\ text (fst (_ocr_tesseract self available raw)) = strip out
           /\ _is_plausible_text self (strip out) = true
           /\ min_text_len self <= len (strip out)
           /\ (2 < Z.of_nat (length (split (strip out))) ->
               snd (_ocr_tesseract self available raw) = 0.7%Q)
           /\ (Z.of_nat (length (split (strip out))) <= 2 ->
               snd (_ocr_tesseract self available raw) = 0.6%Q)).
Proof.
  unfold _ocr_tesseract. destruct available; cbn [negb];
    [|repeat split; auto].
  destruct raw as [out|]; [|repeat split; auto].
  destruct (Z.ltb_spec (len (strip out)) (min_text_len self)) as [Hlt|Hge].
  { rewrite orb_true_r. repeat split; auto. }
  rewrite orb_false_r.
  destruct (truthy (strip out)) eqn:Ht; cbn [negb];
    [|repeat split; auto].
  destruct (_is_plausible_text self (strip out)) eqn:Hp; cbn [negb];
    [|repeat split; auto].
  split; [reflexivity|]. split; [reflexivity|].
  split; [intros [H|H]; congruence|].
  right. exists out. cbn [fst snd text].
  destruct (Z.gtb_spec (Z.of_nat (length (split (strip out)))) 2);
    repeat split; auto; intros; lia.
Qed.

(** X4.  The TrOCR wrapper never raises: when the model is not loaded or
    the recognition raises it answers the empty candidate; otherwise its
    answer is empty or the stripped output with confidence 0.7, and that
    text passes the plausibility filter. *)
Theorem trocr_wrapper_postcondition (self : OCREngine) (loaded : bool)
    (raw : call string) :
  engine (fst (_ocr_trocr self loaded raw)) = "trocr"
  /\ confidence (fst (_ocr_trocr self loaded raw)) = snd (_ocr_trocr self loaded raw)
  /\ (loaded = false \/ raw = Throws ->
      _ocr_trocr self loaded raw = no_candidate "trocr")
  /\ (_ocr_trocr self loaded raw = no_candidate "trocr"
      \/ exists out,
           raw = Gives out
           /\ _ocr_trocr self loaded raw = (mkOCRResult (strip out) [] 0.7 "trocr", 0.7%Q)
           /\ _is_plausible_text self (strip out) = true
           /\ min_text_len self <= len (strip out)).
Proof.
  unfold _ocr_trocr. destruct loaded; cbn [negb]; [|repeat split; auto].
  destruct raw as [out|]; [|repeat split; auto].
  destruct (truthy (strip out)) eqn:Ht; cbn [negb orb];
    [|repeat split; auto].
  destruct (_is_plausible_text self (strip out)) eqn:Hp; cbn [negb];
    [|repeat split; auto].
  split; [reflexivity|]. split; [reflexivity|].
  split; [intros [H|H]; congruence|].
  right. exists out. repeat split; auto.
  pose proof (plausible_long_enough self (strip out) Hp) as H.
  rewrite strip_idempotent in H. exact H.
Qed.

(** X5.  With Tesseract and TrOCR as the only backends, whatever they
    answer or raise, [extract_text] returns the empty result or a text that
    is stripped, plausible and at least [min_text_len] long, tagged with
    one of the two backends and with confidence 0.6 or 0.7 that meets
    [min_confidence]; so a [min_confidence] above 0.7 leaves no output at
    all. *)
Theorem tess_trocr_output_is_plausible (self : OCREngine)
    (available loaded : bool) (tess trocr : call string) :
  (extract_text_tess_trocr self available loaded tess trocr = empty_result
   \/ (let r := extract_text_tess_trocr self available loaded tess trocr in
       strip (text r) = text r
       /\ _is_plausible_text self (text r) = true
       /\ min_text_len self <= len (text r)
       /\ (engine r = "tesseract" \/ engine r = "trocr")
       /\ (confidence r = 0.6%Q \/ confidence r = 0.7%Q)
       /\ (min_confidence self <= confidence r)%Q))
  /\ ((0.7 < min_confidence self)%Q ->
      extract_text_tess_trocr self available loaded tess trocr = empty_result).
Proof.
  assert (Hmain :
    extract_text_tess_trocr self available loaded tess trocr = empty_result
    \/ (let r := extract_text_tess_trocr self available loaded tess trocr in
        strip (text r) = text r
        /\ _is_plausible_text self (text r) = true
        /\ min_text_len self <= len (text r)
        /\ (engine r = "tesseract" \/ engine r = "trocr")
        /\ (confidence r = 0.6%Q \/ confidence r = 0.7%Q)
        /\ (min_confidence self <= confidence r)%Q)).
  { unfold extract_text_tess_trocr.
    set (outputs := _ :: _).
    assert (Hall : forall c, In c outputs ->
              (text (fst c) = "" \/ estimated self c)
              /\ (engine (fst c) = "tesseract" \/ engine (fst c) = "trocr")).
    { intros c Hc. subst outputs. destruct Hc as [<-|Hc].
      - split; [apply tesseract_estimated|].
        left. apply (tesseract_wrapper_shape self available tess).
      - destruct loaded; [|destruct Hc]. destruct Hc as [<-|[]].
        split; [apply trocr_estimated|].
        right. apply (trocr_wrapper_shape self true trocr). }
    destruct (extract_text_shape self outputs) as [He|(c & Hin & Hr & Ht & Hlen & Hconf & _)];
      [left; exact He|].
    right. cbv zeta. rewrite Hr.
    destruct (Hall c Hin) as [[Hempty|(Hs & Hp & Hc & Hv)] Htag].
    - rewrite Hempty in Ht. discriminate.
    - rewrite Hc. repeat split; auto. }
  split; [exact Hmain|].
  intros Hhigh. destruct Hmain as [He|H]; [exact He|].
  cbv zeta in H. destruct H as (_ & _ & _ & _ & [Hc|Hc] & Hle);
    rewrite Hc in Hle; exfalso.
  - apply (Qlt_not_le _ _ Hhigh). eapply Qle_trans; [exact Hle|].
    vm_compute. discriminate.
  - exact (Qlt_not_le _ _ Hhigh Hle).
Qed.

(** X3 when the recognizer raises. *)
Lemma tesseract_wrapper_witness :
  _ocr_tesseract (mkOCREngine 0.5 3) true Throws = no_candidate "tesseract".
Proof.
  apply (proj1 (proj2 (proj2 (tesseract_wrapper_postcondition
                                (mkOCREngine 0.5 3) true Throws)))).
  right. reflexivity.
Defined.

(** X4 when the model is not loaded. *)
Lemma trocr_wrapper_witness :
  _ocr_trocr (mkOCREngine 0.5 3) false (Gives "hello") = no_candidate "trocr".
Proof.
  apply (proj1 (proj2 (proj2 (trocr_wrapper_postcondition
                                (mkOCREngine 0.5 3) false (Gives "hello"))))).
  left. reflexivity.
Defined.

(** X5 with a confidence threshold of 0.8. *)
Lemma tess_trocr_output_witness :
  extract_text_tess_trocr (mkOCREngine 0.8 2) true true
    (Gives "hello world") (Gives "hello world")
  = empty_result.
Proof.
  apply (proj2 (tess_trocr_output_is_plausible (mkOCREngine 0.8 2) true true
                  (Gives "hello world") (Gives "hello world"))).
  vm_compute. reflexivity.
Defined.

End OcrExtras.

(** ** More on the speech engine *)

Module TtsExtras.

Import Py PyFacts Config TtsEngine TtsEngineSpec TtsInit.

Lemma speak_empty host t voice speed volume self :
  truthy t = false -> speak host t voice speed volume self = (Ret tt, self).
Proof. intros H. unfold speak. rewrite H. reflexivity. Qed.

Lemma speak_returns host t voice speed volume self :
  fst (speak host t voice speed volume self) = Ret tt
  /\ coqui (snd (speak host t voice speed volume self)) = coqui self.
Proof.
  destruct (truthy t) eqn:Ht; [|rewrite speak_empty by exact Ht; auto].
  unfold speak. rewrite Ht. cbn [negb].
  destruct (coqui self) as [c|] eqn:Hc.
  - pose proof (speak_primary_behaves host c t voice speed self)
      as (H1 & H2 & H3 & H4).
    unfold try_except.
    destruct (speak_primary host c t voice speed self) as [[[]|e] s1];
      cbn [fst snd] in *; [rewrite H4; auto|].
    cbv [mbind M_bind bind emit _espeak try_except call ret].
    case_outcome (run_espeak host t speed volume voice); rewrite H4; auto.
  - cbv [_espeak try_except call bind emit ret].
    case_outcome (run_espeak host t speed volume voice); auto.
Qed.

(** X13.  [speak] never lets an exception out, whatever the text, the
    backends and the host do, and it does not replace the primary backend;
    on an empty text it does nothing at all. *)
Theorem speak_never_raises (host : Host) (t : string) (voice : option string)
    (speed volume : Q) (self : TTSEngine) :
  fst (speak host t voice speed volume self) = Ret tt
  /\ coqui (snd (speak host t voice speed volume self)) = coqui self
  /\ (truthy t = false -> speak host t voice speed volume self = (Ret tt, self)).
Proof.
  destruct (speak_returns host t voice speed volume self) as [H1 H2].
  repeat split; [exact H1 | exact H2 | apply speak_empty].
Qed.

(** X13 on the empty text. *)
Lemma speak_never_raises_witness :
  speak host_no_device "" (Some "p335") 1.0 0.9
    (mkTTSEngine (Some coqui_broken) None [])
  = (Ret tt, mkTTSEngine (Some coqui_broken) None []).
Proof.
  apply (proj2 (proj2 (speak_never_raises host_no_device "" (Some "p335")
                         1.0 0.9 (mkTTSEngine (Some coqui_broken) None [])))).
  reflexivity.
Defined.

(** X14.  [_play_numpy_audio] changes [last_audio_path] only when the
    sound device failed and the audio was written to "last_audio.wav";
    then it returns normally even if the file cannot be opened.  When the
    write fails too, the exception leaves the method and the path is as
    before. *)
Theorem play_numpy_audio_last_audio_path (host : Host) (data : list Z) (sr : Z)
    (self : TTSEngine) :
  (forall u, sd_play host data sr = Ret u ->
     _play_numpy_audio host data sr self
     = (Ret tt, mkTTSEngine (coqui self) (last_audio_path self)
                            (trace self ++ [EvPlay data sr])))
  /\ (forall e u,
        sd_play host data sr = Raise e ->
        sf_write host "last_audio.wav" data sr = Ret u ->
        _play_numpy_audio host data sr self
        = (Ret tt, mkTTSEngine (coqui self) (Some "last_audio.wav")
                     (trace self ++ [EvPlay data sr; EvSfWrite "last_audio.wav";
                                     EvOpen "last_audio.wav"])))
  /\ (forall e e',
        sd_play host data sr = Raise e ->
        sf_write host "last_audio.wav" data sr = Raise e' ->
        _play_numpy_audio host data sr self
        = (Raise e', mkTTSEngine (coqui self) (last_audio_path self)
                       (trace self ++ [EvPlay data sr; EvSfWrite "last_audio.wav"]))).
Proof.
  repeat split.
  - intros [] H. run_monad. rewrite H. reflexivity.
  - intros e [] H1 H2. run_monad. rewrite H1, H2.
    case_outcome (open_file host "last_audio.wav");
      cbn; rewrite <- !app_assoc; reflexivity.
  - intros e e' H1 H2. run_monad. rewrite H1, H2.
    cbn; rewrite <- !app_assoc; reflexivity.
Qed.

(** X14 on a host without sound device. *)
Lemma play_numpy_audio_witness :
  _play_numpy_audio host_no_device [0; 1; 0] 22050 (mkTTSEngine None None [])
  = (Ret tt, mkTTSEngine None (Some "last_audio.wav")
               [EvPlay [0; 1; 0] 22050; EvSfWrite "last_audio.wav";
                EvOpen "last_audio.wav"]).
Proof.
  apply (proj1 (proj2 (play_numpy_audio_last_audio_path host_no_device
                         [0; 1; 0] 22050 (mkTTSEngine None None [])))
           OtherError tt); reflexivity.
Defined.

(** The primary backend is loaded exactly when it is selected, available,
    named by a non-empty model and its constructor returns. *)
Lemma init_coqui available load cfg c :
  coqui (__init__ available load cfg) = Some c <->
  is_coqui (get cfg "engine" (VStr "coqui")) = true
  /\ available = true
  /\ value_truthy (get cfg "coqui_model" (VStr "tts_models/en/vctk/vits")) = true
  /\ load (get cfg "coqui_model" (VStr "tts_models/en/vctk/vits")) = Ret c.
Proof.
  unfold __init__.
  destruct (is_coqui _); [|cbn; intuition congruence].
  destruct available; [|cbn; intuition congruence]. cbn [andb].
  destruct (value_truthy _); [|cbn; intuition congruence].
  destruct (load _) as [c'|e]; cbn; intuition congruence.
Qed.

(** X15.  [TTSEngine.__init__] never raises, and it loads the primary
    backend exactly when the configured engine is "coqui", the library is
    available, the model name is not empty and the constructor returns;
    in every other case each call of [speak] on a non-empty text goes
    straight to the fallback backend, once, with the arguments given. *)
Theorem engine_without_primary_uses_fallback
    (available : bool) (load : value -> outcome Coqui) (cfg : gmap string value) :
  (forall c,
      coqui (__init__ available load cfg) = Some c <->
      is_coqui (get cfg "engine" (VStr "coqui")) = true
      /\ available = true
      /\ value_truthy (get cfg "coqui_model" (VStr "tts_models/en/vctk/vits")) = true
      /\ load (get cfg "coqui_model" (VStr "tts_models/en/vctk/vits")) = Ret c)
  /\ (forall host t voice speed volume,
        truthy t = true ->
        coqui (__init__ available load cfg) = None ->
        speak host t voice speed volume (__init__ available load cfg)
        = (Ret tt, mkTTSEngine None None [EvEspeak t speed volume voice])).
Proof.
  split; [intros c; apply init_coqui|].
  intros host t voice speed volume Ht Hnone.
  assert (Hinit : __init__ available load cfg = mkTTSEngine None None []).
  { revert Hnone. unfold __init__.
    destruct (_ && _); [|reflexivity].
    destruct (value_truthy _); [|reflexivity].
    destruct (load _); [discriminate | reflexivity]. }
  rewrite Hinit. unfold speak. rewrite Ht. cbn [negb coqui].
  cbv [_espeak try_except call bind emit ret]. cbn [coqui last_audio_path trace app].
  case_outcome (run_espeak host t speed volume voice); reflexivity.
Qed.

(** X15 for the engine "espeak". *)
Lemma engine_without_primary_witness :
  speak host_ok "hello" None 1.0 0.9
    (__init__ true (fun _ => Ret coqui_ok) (<["engine" := VStr "espeak"]> ∅))
  = (Ret tt, mkTTSEngine None None [EvEspeak "hello" 1.0 0.9 None]).
Proof.
  apply (proj2 (engine_without_primary_uses_fallback true (fun _ => Ret coqui_ok)
                  (<["engine" := VStr "espeak"]> ∅))); reflexivity.
Defined.

End TtsExtras.

(** ** More on the pipeline *)

Module PipelineExtras.

Import Py PyFacts Config TtsEngine Pipeline SpeechStage RecognitionSpec.

(** *** The frame queue *)

Lemma push_frame_bounded fr self :
  (length (frame_q self) <= 1)%nat -> frame_q (push_frame fr self) = [Some fr].
Proof.
  unfold push_frame.
  destruct (frame_q self) as [|x [|y q]]; cbn; intros H; [reflexivity.. | lia].
Qed.

Lemma push_frame_keeps fr self :
  running (push_frame fr self) = running self
  /\ text_q (push_frame fr self) = text_q self
  /\ history (push_frame fr self) = history self.
Proof.
  unfold push_frame.
  destruct (put _ _ _); cbn; auto.
Qed.

Lemma capture_body_queue i o st :
  (length (frame_q (pipeline st)) <= 1)%nat ->
  (length (frame_q (pipeline (capture_body i o st))) <= 1)%nat.
Proof.
  intros H. unfold capture_body. destruct (negb (ret o)); [exact H|].
  destruct (Qltb _ _); [exact H|]. cbn [pipeline].
  rewrite push_frame_bounded by exact H. cbn. lia.
Qed.

Lemma observe_stop_queue o st :
  frame_q (pipeline (observe_stop o st)) = frame_q (pipeline st).
Proof. unfold observe_stop. destruct (stop_requested o); reflexivity. Qed.

Lemma capture_while_queue i obs : forall st,
  (length (frame_q (pipeline st)) <= 1)%nat ->
  (length (frame_q (pipeline (snd (capture_while i obs st)))) <= 1)%nat.
Proof.
  induction obs as [|o obs IH]; intros st H; simpl;
    destruct (running (pipeline st)); try exact H.
  apply IH. rewrite observe_stop_queue. apply capture_body_queue. exact H.
Qed.

(** X7.  The frame queue never holds more than one frame: an enqueue of
    the capture stage replaces the unread frame by the new one, the whole
    capture loop keeps the bound whatever is read and whenever, and so does
    [stop]. *)
Theorem frame_queue_holds_at_most_one :
  (forall fr self,
      (length (frame_q self) <= 1)%nat -> frame_q (push_frame fr self) = [Some fr])
  /\ (forall i obs st,
        (length (frame_q (pipeline st)) <= 1)%nat ->
        (length (frame_q (pipeline (snd (capture_while i obs st)))) <= 1)%nat)
  /\ (forall self p,
        (length (frame_q self) <= 1)%nat -> stop self = Some p ->
        (length (frame_q p) <= 1)%nat).
Proof.
  split; [exact push_frame_bounded|]. split; [exact capture_while_queue|].
  intros self p H Hstop. unfold stop in Hstop. injection Hstop as <-.
  destruct (frame_q self) as [|x [|y q]] eqn:E; cbn in *; rewrite ?E; cbn; lia.
Qed.

(** X7 on a queue that holds an unread frame. *)
Lemma frame_queue_witness :
  frame_q (push_frame 8%nat (set_frame_q [Some 7%nat] sample_pipeline))
  = [Some 8%nat].
Proof.
  apply (proj1 frame_queue_holds_at_most_one). cbn. lia.
Defined.

(** *** Stopping *)

(** X8.  [stop] never raises.  It clears the flag and puts one sentinel on
    the text queue each time it is called; the frame queue gets the
    sentinel only when it is empty, a queue that holds an unread frame is
    left as it is; the history, the last text and the thread list are not
    touched. *)
Theorem stop_postcondition (self : AssistivePipeline) :
  exists p,
    stop self = Some p
    /\ running p = false
    /\ text_q p = text_q self ++ [None]
    /\ (frame_q self = [] -> frame_q p = [None])
    /\ (frame_q self <> [] -> frame_q p = frame_q self)
    /\ history p = history self
    /\ last_text p = last_text self
    /\ threads p = threads self
    /\ (exists p2, stop p = Some p2 /\ text_q p2 = text_q self ++ [None; None]).
Proof.
  unfold stop. eexists. split; [reflexivity|].
  destruct (frame_q self) as [|x q] eqn:E; cbn; rewrite ?E; cbn.
  - repeat split; try congruence.
    eexists. split; [reflexivity|]. cbn. rewrite <- app_assoc. reflexivity.
  - repeat split; try congruence.
    eexists. split; [reflexivity|]. cbn. rewrite E. cbn.
    rewrite <- app_assoc. reflexivity.
Qed.

(** X8 on a pipeline whose frame queue holds an unread frame. *)
Lemma stop_postcondition_witness :
  exists p,
    stop (set_frame_q [Some 7%nat] sample_pipeline) = Some p
    /\ frame_q p = [Some 7%nat] /\ text_q p = [None] /\ running p = false.
Proof.
  destruct (stop_postcondition (set_frame_q [Some 7%nat] sample_pipeline))
    as (p & Hp & Hrun & Htq & _ & Hfq & _).
  exists p. repeat split; [exact Hp | apply Hfq; discriminate | exact Htq | exact Hrun].
Defined.

(** *** Recognition *)

Lemma process_frames_app a b st :
  process_frames (a ++ b) st = process_frames b (process_frames a st).
Proof.
  revert st. induction a as [|[res now] a IH]; intros st; cbn; auto.
Qed.

Lemma all_accepted_app a b st :
  all_accepted (a ++ b) st = all_accepted a st && all_accepted b (process_frames a st).
Proof.
  revert st. induction a as [|[res now] a IH]; intros st; cbn; [reflexivity|].
  rewrite IH, andb_assoc. reflexivity.
Qed.

Lemma process_frame_running res now loc self :
  running (snd (process_frame res now (loc, self))) = running self.
Proof.
  destruct (accepts loc res now) eqn:E.
  - rewrite (process_frame_accepted _ _ _ _ E). unfold record_history.
    destruct (int_gt _ _) as [[]|]; reflexivity.
  - rewrite (process_frame_rejected _ _ _ _ E). reflexivity.
Qed.

Lemma process_frames_running inputs : forall loc self,
  running (snd (process_frames inputs (loc, self))) = running self.
Proof.
  induction inputs as [|[res now] rest IH]; intros loc self; [reflexivity|].
  cbn [process_frames].
  pose proof (process_frame_running res now loc self) as H.
  destruct (process_frame res now (loc, self)) as [loc' self'].
  rewrite IH. exact H.
Qed.

(** X9.  The duplicate check looks at the last accepted text only.  A text
    that differs from it is accepted whenever it arrives, so of the texts
    A, B, A submitted at the same instant all three are written and queued;
    and a frame that is dropped (too short, too low a confidence, or a
    repeat) leaves the remembered text and time as they were. *)
Theorem debounce_remembers_one_text :
  (forall loc res now,
      too_short loc (strip (OcrEngine.text res)) = false ->
      (min_conf loc <= OcrEngine.confidence res)%Q ->
      strip (OcrEngine.text res) <> l_last_text loc ->
      accepts loc res now = true)
  /\ (forall config loc0 m resA resB now,
        process_locals (init config) = Some loc0 ->
        get (app config) "max_history" (VInt 50) = VInt m ->
        too_short loc0 (strip (OcrEngine.text resA)) = false ->
        too_short loc0 (strip (OcrEngine.text resB)) = false ->
        (min_conf loc0 <= OcrEngine.confidence resA)%Q ->
        (min_conf loc0 <= OcrEngine.confidence resB)%Q ->
        strip (OcrEngine.text resA) <> strip (OcrEngine.text resB) ->
        text_q (snd (process_frames [(resA, now); (resB, now); (resA, now)]
                       (loc0, init config)))
        = [Some (strip (OcrEngine.text resA)); Some (strip (OcrEngine.text resB));
           Some (strip (OcrEngine.text resA))])
  /\ (forall loc res now self,
        accepts loc res now = false ->
        snd (process_frame res now (loc, self)) = self
        /\ l_last_text (fst (process_frame res now (loc, self))) = l_last_text loc
        /\ l_last_time (fst (process_frame res now (loc, self))) = l_last_time loc).
Proof.
  assert (H1 : forall loc res now,
      too_short loc (strip (OcrEngine.text res)) = false ->
      (min_conf loc <= OcrEngine.confidence res)%Q ->
      strip (OcrEngine.text res) <> l_last_text loc ->
      accepts loc res now = true).
  { intros loc res now Hs Hc Hne. apply accepts_intro; try assumption.
    apply is_duplicate_other. exact Hne. }
  split; [exact H1|]. split.
  - intros config loc0 m resA resB now Hloc Hm HsA HsB HcA HcB Hne.
    pose proof (first_frame_accepted loc0 (init config) resA now Hloc HsA HcA) as Ha1.
    cbn [process_frames].
    rewrite (process_frame_accepted_int resA now loc0 (init config) m Ha1 Hm).
    set (loc1 := remember _ now _). set (self1 := set_text_q _ _).
    assert (Ha2 : accepts loc1 resB now = true).
    { apply H1; subst loc1; cbn; auto. }
    rewrite (process_frame_accepted_int resB now loc1 self1 m Ha2)
      by (subst self1; cbn; exact Hm).
    set (loc2 := remember _ now _). set (self2 := set_text_q _ _).
    assert (Ha3 : accepts loc2 resA now = true).
    { apply H1; subst loc2 loc1; cbn; auto. }
    rewrite (process_frame_accepted_int resA now loc2 self2 m Ha3)
      by (subst self2 self1; cbn; exact Hm).
    subst self2 self1. reflexivity.
  - intros loc res now self Hrej.
    rewrite (process_frame_rejected _ _ _ _ Hrej). destruct loc; auto.
Qed.

(** X9 on the default configuration with the texts "aa", "bb", "aa". *)
Lemma debounce_remembers_one_text_witness :
  text_q (snd (process_frames
                 [(OcrEngine.mkOCRResult "aa" [] 0.7 "tesseract", 1%Q);
                  (OcrEngine.mkOCRResult "bb" [] 0.7 "tesseract", 1%Q);
                  (OcrEngine.mkOCRResult "aa" [] 0.7 "tesseract", 1%Q)]
                 (sample_locals, init DEFAULT_CONFIG)))
  = [Some "aa"; Some "bb"; Some "aa"].
Proof.
  apply (proj1 (proj2 debounce_remembers_one_text) DEFAULT_CONFIG sample_locals 50
           (OcrEngine.mkOCRResult "aa" [] 0.7 "tesseract")
           (OcrEngine.mkOCRResult "bb" [] 0.7 "tesseract") 1%Q);
    try reflexivity; try (vm_compute; congruence).
Defined.

Lemma record_history_str self e s :
  get (app (cfg self)) "max_history" (VInt 50) = VStr s ->
  record_history self e = (set_history (history self ++ [e]) self, None).
Proof. intros H. unfold record_history. rewrite H. reflexivity. Qed.

(** X10.  When [max_history] is configured as a string, the comparison of
    line 143 raises after the entry was appended and the exception is
    swallowed: every frame that passes the three tests is written to the
    history, which is never trimmed, but its text is neither remembered
    nor queued for speech. *)
Theorem string_max_history_mutes_the_pipeline :
  forall (inputs : list (OcrEngine.OCRResult * Q)) loc self s,
    get (app (cfg self)) "max_history" (VInt 50) = VStr s ->
    all_accepted inputs (loc, self) = true ->
    history (snd (process_frames inputs (loc, self)))
    = history self ++ map entry_of inputs
    /\ text_q (snd (process_frames inputs (loc, self))) = text_q self
    /\ last_text (snd (process_frames inputs (loc, self))) = last_text self
    /\ l_last_text (fst (process_frames inputs (loc, self))) = l_last_text loc.
Proof.
  induction inputs as [|[res now] rest IH]; intros loc self s Hs Hacc.
  - cbn. rewrite app_nil_r. auto.
  - cbn [all_accepted fst] in Hacc. apply andb_prop in Hacc as [Ha Hrest].
    cbn [process_frames].
    rewrite (process_frame_accepted _ _ _ _ Ha) in *.
    rewrite (record_history_str _ _ _ Hs) in *.
    destruct (IH (count_frame loc)
                 (set_history (history self ++ [entry_of (res, now)]) self) s)
      as (I1 & I2 & I3 & I4); [exact Hs | exact Hrest |].
    rewrite I1, I2, I3, I4. cbn. rewrite <- app_assoc. destruct loc; auto.
Qed.

(** X10 with [max_history] set to the string "fifty" and the same text three
    times at the same instant. *)
Lemma string_max_history_witness :
  history (snd (process_frames
                  [(sample_result, 1%Q); (sample_result, 1%Q); (sample_result, 1%Q)]
                  (sample_locals,
                   init (with_app "max_history" (VStr "fifty") DEFAULT_CONFIG))))
  = map entry_of [(sample_result, 1%Q); (sample_result, 1%Q); (sample_result, 1%Q)]
  /\ text_q (snd (process_frames
                    [(sample_result, 1%Q); (sample_result, 1%Q); (sample_result, 1%Q)]
                    (sample_locals,
                     init (with_app "max_history" (VStr "fifty") DEFAULT_CONFIG))))
     = [].
Proof.
  destruct (string_max_history_mutes_the_pipeline
              [(sample_result, 1%Q); (sample_result, 1%Q); (sample_result, 1%Q)]
              sample_locals
              (init (with_app "max_history" (VStr "fifty") DEFAULT_CONFIG)) "fifty")
    as (H1 & H2 & _); [reflexivity | vm_compute; reflexivity |].
  split; [exact H1 | exact H2].
Defined.

(** *** Status and history queries *)

Lemma process_frames_cfg_eq inputs : forall loc self,
  cfg (snd (process_frames inputs (loc, self))) = cfg self.
Proof.
  induction inputs as [|[res now] rest IH]; intros loc self; [reflexivity|].
  cbn [process_frames].
  pose proof (process_frame_cfg res now loc self) as H.
  destruct (process_frame res now (loc, self)) as [loc' self'].
  rewrite IH. exact H.
Qed.

Lemma keep_newest_snoc_rev m l e :
  1 <= m -> rev (keep_newest m (l ++ [e])) = e :: rev (keep_newest (m - 1) l).
Proof.
  intros Hm. unfold keep_newest. rewrite length_app. cbn [length].
  rewrite skipn_app.
  replace (length l + 1 - Z.to_nat m - length l)%nat with 0%nat by lia.
  replace (length l + 1 - Z.to_nat m)%nat
    with (length l - Z.to_nat (m - 1))%nat by lia.
  cbn [skipn]. rewrite rev_app_distr. reflexivity.
Qed.

Lemma process_frames_last_text inputs : forall res now loc self m,
  get (app (cfg self)) "max_history" (VInt 50) = VInt m ->
  all_accepted (inputs ++ [(res, now)]) (loc, self) = true ->
  last_text (snd (process_frames (inputs ++ [(res, now)]) (loc, self)))
  = strip (OcrEngine.text res).
Proof.
  intros res now loc self m Hm Hacc.
  rewrite all_accepted_app in Hacc. apply andb_prop in Hacc as [_ Hlast].
  rewrite process_frames_app.
  pose proof (process_frames_cfg_eq inputs loc self) as Hcfg.
  destruct (process_frames inputs (loc, self)) as [loc1 self1].
  cbn [all_accepted fst] in Hlast. apply andb_prop in Hlast as [Ha _].
  cbn [process_frames snd] in *.
  rewrite (process_frame_accepted_int res now loc1 self1 m Ha)
    by (rewrite Hcfg; exact Hm).
  reflexivity.
Qed.

(** X11.  After a run of accepted frames on an empty history (integer
    [max_history] of at least 1), [get_history] lists the kept entries
    newest first, starting with the entry of the frame accepted last, and
    [get_status] reports the text of that frame and a history count of
    [min(number of frames, max_history)]. *)
Theorem history_query_is_newest_first :
  forall (inputs : list (OcrEngine.OCRResult * Q)) res now loc self m,
    get (app (cfg self)) "max_history" (VInt 50) = VInt m ->
    1 <= m ->
    history self = [] ->
    all_accepted (inputs ++ [(res, now)]) (loc, self) = true ->
    let p := snd (process_frames (inputs ++ [(res, now)]) (loc, self)) in
    get_history p
    = entry_of (res, now) :: rev (keep_newest (m - 1) (map entry_of inputs))
    /\ get_status p
       = (running self, strip (OcrEngine.text res),
          Z.min (Z.of_nat (length inputs) + 1) m).
Proof.
  intros inputs res now loc self m Hm Hpos Hempty Hacc p.
  destruct (process_frames_accepted (inputs ++ [(res, now)]) loc self m Hm)
    as [Hh _]; [lia | rewrite Hempty; cbn; lia | exact Hacc |].
  fold p in Hh. rewrite Hempty, app_nil_l, map_app in Hh. cbn [map] in Hh.
  unfold get_history, get_status. rewrite Hh. split.
  - apply keep_newest_snoc_rev. exact Hpos.
  - subst p. rewrite process_frames_running.
    rewrite (process_frames_last_text inputs res now loc self m Hm Hacc).
    f_equal. unfold keep_newest.
    rewrite length_skipn, length_app, length_map. cbn [length]. lia.
Qed.

(** X11 on seven accepted frames with [max_history = 2]. *)
Lemma history_query_witness :
  get_history (snd (process_frames sample_frames
                      (sample_locals,
                       init (with_app "max_history" (VInt 2) DEFAULT_CONFIG))))
  = [mkEntry 7 "gg" "tesseract" 0.7; mkEntry 6 "ff" "tesseract" 0.7]
  /\ get_status (snd (process_frames sample_frames
                        (sample_locals,
                         init (with_app "max_history" (VInt 2) DEFAULT_CONFIG))))
     = (false, "gg", 2).
Proof.
  apply (history_query_is_newest_first
           (firstn 6 sample_frames)
           (OcrEngine.mkOCRResult "gg" [] 0.7 "tesseract") 7%Q sample_locals
           (init (with_app "max_history" (VInt 2) DEFAULT_CONFIG)) 2).
  - reflexivity.
  - lia.
  - reflexivity.
  - vm_compute; reflexivity.
Defined.

(** *** The speech worker *)

Lemma set_text_q_twice q q' self :
  set_text_q q (set_text_q q' self) = set_text_q q self.
Proof. reflexivity. Qed.

Lemma set_text_q_same self : set_text_q (text_q self) self = self.
Proof. destruct self; reflexivity. Qed.

(** The worker speaks the queued texts in order up to the sentinel. *)
Lemma tts_loop_until_sentinel host args texts : forall rest self engine n,
  running self = true ->
  text_q self = map Some texts ++ None :: rest ->
  (length texts < n)%nat ->
  _tts_loop host args n (self, engine)
  = (Returned, (set_text_q rest self, speak_all host args texts engine)).
Proof.
  induction texts as [|t texts IH]; intros rest self engine n Hrun Hq Hn;
    (destruct n as [|n]; [lia|]); cbn [_tts_loop fst]; rewrite Hrun;
    unfold tts_iteration; rewrite Hq; cbn [map List.app get_nowait].
  - reflexivity.
  - rewrite (IH rest (set_text_q (map Some texts ++ None :: rest) self));
      [reflexivity | exact Hrun | reflexivity | cbn in Hn; lia].
Qed.

(** Without sentinel the worker speaks everything and keeps polling. *)
Lemma tts_loop_drains host args texts : forall self engine n,
  running self = true ->
  text_q self = map Some texts ->
  (length texts <= n)%nat ->
  _tts_loop host args n (self, engine)
  = (StillLooping, (set_text_q [] self, speak_all host args texts engine)).
Proof.
  induction texts as [|t texts IH]; intros self engine n Hrun Hq Hn.
  - cbn [map] in Hq. cbn [speak_all fold_left].
    rewrite <- Hq, set_text_q_same. clear Hn.
    induction n as [|n IHn]; cbn [_tts_loop fst]; rewrite Hrun; [reflexivity|].
    unfold tts_iteration. rewrite Hq. cbn [get_nowait]. exact IHn.
  - destruct n as [|n]; [cbn in Hn; lia|]. cbn [_tts_loop fst]. rewrite Hrun.
    unfold tts_iteration. rewrite Hq. cbn [map get_nowait].
    rewrite (IH (set_text_q (map Some texts) self));
      [reflexivity | exact Hrun | reflexivity | cbn in Hn; lia].
Qed.

(** An engine without primary backend hands every non-empty text to the
    fallback backend, in order. *)
Lemma speak_all_fallback host args texts : forall engine,
  coqui engine = None ->
  Forall (fun t => truthy t = true) texts ->
  espeak_calls (trace (speak_all host args texts engine))
  = espeak_calls (trace engine)
    ++ map (fun t => (t, arg_speed args, arg_volume args, arg_voice args)) texts.
Proof.
  induction texts as [|t texts IH]; intros engine Hc Hall.
  - cbn. rewrite app_nil_r. reflexivity.
  - inversion Hall as [|? ? Ht Hrest]; subst.
    unfold speak_all in *. cbn [fold_left].
    set (e1 := snd (speak host t _ _ _ engine)).
    assert (H1 : coqui e1 = None
                 /\ trace e1 = trace engine
                      ++ [EvEspeak t (arg_speed args) (arg_volume args) (arg_voice args)]).
    { subst e1. unfold speak. rewrite Ht, Hc. cbn [negb].
      pose proof (TtsEngineSpec.espeak_spec host t (arg_speed args) (arg_volume args)
                    (arg_voice args) engine) as [_ Htr].
      cbn zeta in Htr. split; [|exact Htr].
      cbv [_espeak try_except call bind emit ret].
      destruct (run_espeak host t _ _ _); exact Hc. }
    destruct H1 as [Hc1 Ht1].
    rewrite (IH e1 Hc1 Hrest), Ht1, TtsEngineSpec.espeak_calls_app.
    cbn. rewrite <- app_assoc. reflexivity.
Qed.

(** X12.  The speech worker handles the text queue in FIFO order, one
    [speak] per text: up to the sentinel of [stop] it speaks the queued
    texts in their order and then returns, leaving what is behind the
    sentinel unspoken; with an engine that has no primary backend the
    fallback backend is called once per text, in queue order, with the
    speed, volume and voice the worker passes on. *)
Theorem speech_worker_is_fifo (host : Host) (args : SpeakArgs) :
  (forall texts rest self engine n,
      running self = true ->
      text_q self = map Some texts ++ None :: rest ->
      (length texts < n)%nat ->
      _tts_loop host args n (self, engine)
      = (Returned, (set_text_q rest self, speak_all host args texts engine)))
  /\ (forall texts rest self engine n,
        running self = true ->
        text_q self = map Some texts ++ None :: rest ->
        (length texts < n)%nat ->
        coqui engine = None ->
        Forall (fun t => truthy t = true) texts ->
        espeak_calls (trace (snd (snd (_tts_loop host args n (self, engine)))))
        = espeak_calls (trace engine)
          ++ map (fun t => (t, arg_speed args, arg_volume args, arg_voice args)) texts).
Proof.
  split; [apply tts_loop_until_sentinel|].
  intros texts rest self engine n Hrun Hq Hn Hc Hall.
  rewrite (tts_loop_until_sentinel host args texts rest self engine n Hrun Hq Hn).
  cbn [snd]. apply speak_all_fallback; assumption.
Qed.

(** X12 on the queue ["aa"; "bb"; sentinel; "cc"]. *)
Lemma speech_worker_witness :
  _tts_loop host_ok (mkArgs (Some "p335") 1.0 0.9) 5
    (set_text_q [Some "aa"; Some "bb"; None; Some "cc"] sample_pipeline,
     mkTTSEngine None None [])
  = (Returned,
     (set_text_q [Some "cc"] sample_pipeline,
      mkTTSEngine None None
        [EvEspeak "aa" 1.0 0.9 (Some "p335"); EvEspeak "bb" 1.0 0.9 (Some "p335")])).
Proof.
  apply (proj1 (speech_worker_is_fifo host_ok (mkArgs (Some "p335") 1.0 0.9))
           ["aa"; "bb"] [Some "cc"]
           (set_text_q [Some "aa"; Some "bb"; None; Some "cc"] sample_pipeline)
           (mkTTSEngine None None []) 5%nat).
  - reflexivity.
  - reflexivity.
  - cbn. lia.
Defined.

(** X16.  From detection to speech the order is kept: when a run of
    accepted frames is followed by the speech worker (integer
    [max_history], empty text queue, no [stop] in between), every accepted
    text is spoken exactly once, in the order of acceptance, and the queue
    is empty afterwards. *)
Theorem accepted_texts_are_spoken_in_order (host : Host) (args : SpeakArgs) :
  forall (inputs : list (OcrEngine.OCRResult * Q)) loc self engine m n,
    running self = true ->
    text_q self = [] ->
    get (app (cfg self)) "max_history" (VInt 50) = VInt m ->
    0 <= m ->
    (length (history self) <= Z.to_nat m)%nat ->
    all_accepted inputs (loc, self) = true ->
    (length inputs <= n)%nat ->
    _tts_loop host args n (snd (process_frames inputs (loc, self)), engine)
    = (StillLooping,
       (set_text_q [] (snd (process_frames inputs (loc, self))),
        speak_all host args (map (fun i => strip (OcrEngine.text (fst i))) inputs)
                  engine)).
Proof.
  intros inputs loc self engine m n Hrun Hq Hm Hpos Hlen Hacc Hn.
  destruct (process_frames_accepted inputs loc self m Hm Hpos Hlen Hacc) as [_ Htq].
  apply tts_loop_drains.
  - rewrite process_frames_running. exact Hrun.
  - rewrite Htq, Hq, app_nil_l, map_map. reflexivity.
  - rewrite length_map. exact Hn.
Qed.

(** X16 on seven frames and an engine without primary backend. *)
Lemma accepted_texts_witness :
  espeak_calls
    (trace (snd (snd (_tts_loop host_ok (mkArgs None 1.0 0.9) 7
                        (snd (process_frames sample_frames
                                (sample_locals, sample_pipeline)),
                         mkTTSEngine None None [])))))
  = map (fun t => (t, 1.0%Q, 0.9%Q, None)) ["aa"; "bb"; "cc"; "dd"; "ee"; "ff"; "gg"].
Proof.
  rewrite (accepted_texts_are_spoken_in_order host_ok (mkArgs None 1.0 0.9)
             sample_frames sample_locals sample_pipeline
             (mkTTSEngine None None []) 50 7).
  - reflexivity.
  - reflexivity.
  - reflexivity.
  - reflexivity.
  - lia.
  - cbn. lia.
  - vm_compute; reflexivity.
  - cbn. lia.
Defined.

End PipelineExtras.

(** ** The configuration file *)

Module ConfigExtras.

Import ConfigFile.

Lemma merged_dict vd bd :
  merged (JDict vd) (Some (JDict bd)) = JDict (_merge_defaults bd vd).
Proof.
  cbn [merged]. f_equal. unfold _merge_defaults. revert bd.
  induction vd as [|[k v] vd IH]; intros bd; [reflexivity|].
  cbn [fold_left fst snd]. apply IH.
Qed.

Lemma merged_other v b :
  (forall vd bd, ~ (v = JDict vd /\ b = Some (JDict bd))) -> merged v b = v.
Proof.
  intros H. destruct v; try reflexivity.
  destruct b as [[]|]; try reflexivity. exfalso. eapply H. eauto.
Qed.

Lemma merge_cons base k v ov :
  _merge_defaults base ((k, v) :: ov)
  = _merge_defaults (dict_set k (merged v (dict_get k base)) base) ov.
Proof. reflexivity. Qed.

Lemma dict_get_set_eq k v d : dict_get k (dict_set k v d) = Some v.
Proof.
  induction d as [|[k' v'] d IH]; cbn; [rewrite String.eqb_refl; reflexivity|].
  destruct (String.eqb_spec k k'); cbn.
  - rewrite String.eqb_refl. reflexivity.
  - destruct (String.eqb_spec k k'); [contradiction | exact IH].
Qed.

Lemma dict_get_set_ne k k' v d :
  k <> k' -> dict_get k (dict_set k' v d) = dict_get k d.
Proof.
  intros Hne. induction d as [|[k2 v2] d IH]; cbn.
  - destruct (String.eqb_spec k k'); [contradiction | reflexivity].
  - destruct (String.eqb_spec k' k2); cbn.
    + subst. destruct (String.eqb_spec k k2); [contradiction | reflexivity].
    + destruct (String.eqb_spec k k2); [reflexivity | exact IH].
Qed.

Lemma dict_set_same k v d : dict_get k d = Some v -> dict_set k v d = d.
Proof.
  induction d as [|[k' v'] d IH]; cbn; [discriminate|].
  destruct (String.eqb_spec k k').
  - intros [= ->]. subst. reflexivity.
  - intros H. rewrite (IH H). reflexivity.
Qed.

Lemma dict_get_None k d : dict_get k d = None <-> ~ In k (keys d).
Proof.
  induction d as [|[k' v'] d IH]; cbn; [tauto|].
  destruct (String.eqb_spec k k'); [subst; split; [discriminate | tauto]|].
  rewrite IH. split; [intros H [E|E]; [congruence | tauto] | tauto].
Qed.

Lemma dict_get_In k v d : NoDup (keys d) -> In (k, v) d -> dict_get k d = Some v.
Proof.
  induction d as [|[k' v'] d IH]; cbn; [tauto|].
  intros Hnd [E|Hin].
  - inversion E; subst. rewrite String.eqb_refl. reflexivity.
  - apply NoDup_cons in Hnd as [Hnd Hd].
    destruct (String.eqb_spec k k'); [|apply IH; assumption].
    subst. exfalso. apply Hnd. apply list_elem_of_In.
    change k' with (fst (k', v)). apply in_map. exact Hin.
Qed.

Lemma merge_lookup ov : forall base k,
  NoDup (keys ov) ->
  dict_get k (_merge_defaults base ov)
  = match dict_get k ov with
    | Some v => Some (merged v (dict_get k base))
    | None => dict_get k base
    end.
Proof.
  induction ov as [|[k0 v0] ov IH]; intros base k Hnd; [reflexivity|].
  cbn [keys map fst] in Hnd. apply NoDup_cons in Hnd as [Hk0 Hnd].
  rewrite merge_cons, (IH _ k Hnd). cbn [dict_get].
  destruct (String.eqb_spec k k0) as [->|Hne].
  - assert (H : dict_get k0 ov = None).
    { apply dict_get_None. intros Hin. apply Hk0, list_elem_of_In. exact Hin. }
    rewrite H. apply dict_get_set_eq.
  - rewrite (dict_get_set_ne k k0) by exact Hne. reflexivity.
Qed.

(** X17.  After [_merge_defaults(base, override)] a key that the override
    does not have holds what it held in [base]; a key of the override holds
    the override's value, except that two dictionaries are merged in turn.
    So one level down, inside a section that both have, a setting of the
    override wins and a setting it lacks keeps the value of [base]. *)
Theorem merge_defaults_lookup :
  (forall base ov k,
      NoDup (keys ov) ->
      dict_get k (_merge_defaults base ov)
      = match dict_get k ov with
        | Some v => Some (merged v (dict_get k base))
        | None => dict_get k base
        end)
  /\ (forall base ov sec bsec osec key,
        NoDup (keys ov) -> NoDup (keys osec) ->
        dict_get sec base = Some (JDict bsec) ->
        dict_get sec ov = Some (JDict osec) ->
        dict_get sec (_merge_defaults base ov) = Some (JDict (_merge_defaults bsec osec))
        /\ (dict_get key osec = None ->
            dict_get key (_merge_defaults bsec osec) = dict_get key bsec)
        /\ (forall v, dict_get key osec = Some v -> (forall d, v <> JDict d) ->
            dict_get key (_merge_defaults bsec osec) = Some v)).
Proof.
  split; [intros base ov k; apply merge_lookup|].
  intros base ov sec bsec osec key Hov Hosec Hb Ho. split; [|split].
  - rewrite merge_lookup, Ho, Hb, merged_dict by exact Hov. reflexivity.
  - intros Hnone. rewrite merge_lookup, Hnone by exact Hosec. reflexivity.
  - intros v Hv Hscalar. rewrite merge_lookup, Hv by exact Hosec.
    rewrite merged_other; [reflexivity|].
    intros vd bd [E _]. exact (Hscalar vd E).
Qed.

(** X17 on the defaults and a patch that sets one "ocr" entry. *)
Lemma merge_defaults_lookup_witness :
  dict_get "ocr"
    (_merge_defaults DEFAULT_CONFIG [("ocr", JDict [("min_text_len", JInt 5)])])
  = Some (JDict [("engine", JStr "tesseract"); ("language", JStr "eng");
                 ("capture_interval", JFloat 0.05); ("min_confidence", JFloat 0.4);
                 ("min_text_len", JInt 5)]).
Proof.
  refine (proj1 (proj2 merge_defaults_lookup DEFAULT_CONFIG
                   [("ocr", JDict [("min_text_len", JInt 5)])] "ocr" _
                   [("min_text_len", JInt 5)] "min_text_len" _ _ eq_refl eq_refl));
    repeat constructor; apply not_elem_of_nil.
Defined.

Lemma keys_dict_set k v d :
  keys (dict_set k v d)
  = match dict_get k d with Some _ => keys d | None => keys d ++ [k] end.
Proof.
  induction d as [|[k' v'] d IH]; cbn; [reflexivity|].
  destruct (String.eqb_spec k k'); cbn; [subst; reflexivity|].
  unfold keys in IH. rewrite IH. destruct (dict_get k d); reflexivity.
Qed.

Lemma merge_keys ov : forall base,
  exists extra,
    keys (_merge_defaults base ov) = keys base ++ extra
    /\ (forall k, In k extra -> In k (keys ov) /\ ~ In k (keys base))
    /\ (NoDup (keys base) -> NoDup (keys (_merge_defaults base ov))).
Proof.
  induction ov as [|[k0 v0] ov IH]; intros base.
  - exists []. cbn. rewrite app_nil_r. repeat split; auto; intros k [].
  - rewrite merge_cons.
    destruct (IH (dict_set k0 (merged v0 (dict_get k0 base)) base))
      as (extra & Hk & Hex & Hnd).
    rewrite keys_dict_set in Hk, Hex, Hnd.
    destruct (dict_get k0 base) as [b|] eqn:E.
    + exists extra. split; [exact Hk|]. split; [|exact Hnd].
      intros k Hin. destruct (Hex k Hin) as [H1 H2]. split; [right; exact H1 | exact H2].
    + apply dict_get_None in E.
      exists (k0 :: extra). rewrite Hk, <- app_assoc. split; [reflexivity|]. split.
      * intros k [<-|Hin]; [split; [left; reflexivity | exact E]|].
        destruct (Hex k Hin) as [H1 H2]. split; [right; exact H1|].
        intros H. apply H2. apply in_or_app. left. exact H.
      * intros Hb. rewrite app_assoc, <- Hk. apply Hnd.
        apply NoDup_app. repeat split; [exact Hb| |].
        -- intros x Hx Hx'. apply list_elem_of_In in Hx.
           apply list_elem_of_singleton in Hx'. subst. exact (E Hx).
        -- repeat constructor. apply not_elem_of_nil.
Qed.

(** X18.  [_merge_defaults] never drops or reorders a key of [base]: the
    keys afterwards are those of [base], in their order, followed by the
    keys that only the override has; and a dictionary without doubled keys
    stays one. *)
Theorem merge_defaults_keeps_keys (base ov : dict) :
  exists extra,
    keys (_merge_defaults base ov) = keys base ++ extra
    /\ (forall k, In k extra -> In k (keys ov) /\ ~ In k (keys base))
    /\ (forall k, In k (keys base) -> dict_get k (_merge_defaults base ov) <> None)
    /\ (NoDup (keys base) -> NoDup (keys (_merge_defaults base ov))).
Proof.
  destruct (merge_keys ov base) as (extra & Hk & Hex & Hnd).
  exists extra. repeat split; try assumption; try (apply Hex; assumption).
  intros k Hin Hnone. apply dict_get_None in Hnone. apply Hnone.
  rewrite Hk. apply in_or_app. left. exact Hin.
Qed.

(** X18 on the defaults and a patch with a section of its own. *)
Lemma merge_defaults_keys_witness :
  keys (_merge_defaults DEFAULT_CONFIG [("extra", JInt 1); ("ocr", JInt 0)])
  = ["camera"; "ocr"; "tts"; "app"; "extra"]
  /\ NoDup (keys (_merge_defaults DEFAULT_CONFIG [("extra", JInt 1); ("ocr", JInt 0)])).
Proof.
  split; [reflexivity|].
  destruct (merge_defaults_keeps_keys DEFAULT_CONFIG [("extra", JInt 1); ("ocr", JInt 0)])
    as (extra & _ & _ & _ & Hnd).
  apply Hnd. cbn.
  repeat (constructor;
          [rewrite ?not_elem_of_cons; repeat split;
           solve [discriminate | apply not_elem_of_nil]|]).
  constructor.
Defined.

(** X19.  Constructing a [Config] never fails: a missing file, a file that
    is not JSON and a document that is not an object all give the defaults;
    in every case the four default sections come first in the data, the
    file then holds exactly the data, and inside a section that the saved
    file has as an object a saved scalar wins while an entry it lacks gets
    the default. *)
Theorem config_load_falls_back_to_defaults :
  (forall f, (forall d, f <> Holds (JDict d)) -> __init__ f = save DEFAULT_CONFIG)
  /\ (forall f, on_disk (__init__ f) = Holds (JDict (data (__init__ f))))
  /\ (forall f, exists extra,
        keys (data (__init__ f)) = ["camera"; "ocr"; "tts"; "app"] ++ extra)
  /\ (forall saved sec dsec ssec key,
        NoDup (keys saved) -> NoDup (keys ssec) ->
        dict_get sec DEFAULT_CONFIG = Some (JDict dsec) ->
        dict_get sec saved = Some (JDict ssec) ->
        exists lsec,
          dict_get sec (data (__init__ (Holds (JDict saved)))) = Some (JDict lsec)
          /\ (dict_get key ssec = None -> dict_get key lsec = dict_get key dsec)
          /\ (forall v, dict_get key ssec = Some v -> (forall d, v <> JDict d) ->
              dict_get key lsec = Some v)).
Proof.
  split; [|split; [|split]].
  - intros [| |[]] H; try reflexivity. exfalso. exact (H d eq_refl).
  - intros [| |[]]; reflexivity.
  - intros f.
    assert (Hd : exists extra, keys DEFAULT_CONFIG
                               = ["camera"; "ocr"; "tts"; "app"] ++ extra)
      by (exists []; reflexivity).
    destruct f as [| |[]]; try exact Hd.
    cbn [__init__ load save data].
    destruct (merge_keys d DEFAULT_CONFIG) as (extra & Hk & _).
    exists extra. exact Hk.
  - intros saved sec dsec ssec key Hs Hss Hd Hsec.
    exists (_merge_defaults dsec ssec). cbn [__init__ load save data].
    split; [|split].
    + rewrite merge_lookup, Hsec, Hd, merged_dict by exact Hs. reflexivity.
    + intros Hnone. rewrite merge_lookup, Hnone by exact Hss. reflexivity.
    + intros v Hv Hscalar. rewrite merge_lookup, Hv by exact Hss.
      rewrite merged_other; [reflexivity|].
      intros vd bd [E _]. exact (Hscalar vd E).
Qed.

(** X19 on a file that holds a list. *)
Lemma config_load_witness :
  __init__ (Holds (JList [JInt 1])) = save DEFAULT_CONFIG.
Proof.
  apply (proj1 config_load_falls_back_to_defaults). discriminate.
Defined.

Lemma well_formed_dict d :
  well_formed (JDict d) <->
  NoDup (keys d) /\ Forall (fun kv => well_formed (snd kv)) d.
Proof.
  cbn [well_formed]. unfold keys.
  assert (H : forall d : dict,
             (fix all (d : dict) : Prop :=
                match d with
                | [] => True
                | (_, v) :: d' => well_formed v /\ all d'
                end) d <-> Forall (fun kv => well_formed (snd kv)) d).
  { clear d. induction d as [|[k v] d IH].
    - split; [constructor | auto].
    - rewrite Forall_cons, <- IH. reflexivity. }
  rewrite H. reflexivity.
Qed.

(** Merging from a dictionary that already holds what the items would
    write changes nothing. *)
Lemma merge_fixed items : forall M,
  (forall k v, In (k, v) items -> dict_set k (merged v (dict_get k M)) M = M) ->
  _merge_defaults M items = M.
Proof.
  induction items as [|[k v] items IH]; intros M H; [reflexivity|].
  rewrite merge_cons, (H k v) by (left; reflexivity).
  apply IH. intros k' v' Hin. apply H. right. exact Hin.
Qed.

Lemma merged_self : forall x, well_formed x -> merged x (Some x) = x.
Proof.
  apply (json_dict_ind (fun x => well_formed x -> merged x (Some x) = x)).
  - intros j Hj _. apply merged_other. intros vd bd [E _]. exact (Hj vd E).
  - intros d IH Hwf. apply well_formed_dict in Hwf as [Hnd Hall].
    rewrite merged_dict. f_equal. apply merge_fixed.
    intros k v Hin. rewrite (dict_get_In k v d Hnd Hin).
    rewrite List.Forall_forall in IH, Hall.
    pose proof (IH (k, v) Hin (Hall (k, v) Hin)) as E. cbn [snd] in E. rewrite E.
    apply dict_set_same, dict_get_In; assumption.
Qed.

Lemma merge_twice vd :
  NoDup (keys vd) ->
  (forall k v, In (k, v) vd ->
     forall ob, merged v (Some (merged v ob)) = merged v ob) ->
  forall bd, _merge_defaults (_merge_defaults bd vd) vd = _merge_defaults bd vd.
Proof.
  intros Hnd Hv bd. apply merge_fixed. intros k v Hin.
  rewrite (merge_lookup vd bd k Hnd), (dict_get_In k v vd Hnd Hin), (Hv k v Hin).
  apply dict_set_same.
  rewrite (merge_lookup vd bd k Hnd), (dict_get_In k v vd Hnd Hin). reflexivity.
Qed.

Lemma merged_twice : forall v,
  well_formed v -> forall ob, merged v (Some (merged v ob)) = merged v ob.
Proof.
  apply (json_dict_ind
           (fun v => well_formed v ->
                     forall ob, merged v (Some (merged v ob)) = merged v ob)).
  - intros j Hj _ ob.
    assert (H : forall b, merged j b = j).
    { intros b. apply merged_other. intros vd bd [E _]. exact (Hj vd E). }
    rewrite !H. reflexivity.
  - intros d IH Hwf ob. pose proof Hwf as Hwf'.
    apply well_formed_dict in Hwf as [Hnd Hall].
    rewrite List.Forall_forall in IH, Hall.
    destruct ob as [[| | | | | |bd]|];
      try (cbn [merged]; apply (merged_self (JDict d) Hwf')).
    rewrite !merged_dict. f_equal. apply merge_twice; [exact Hnd|].
    intros k v Hin. apply (IH (k, v) Hin). apply (Hall (k, v) Hin).
Qed.

(** X20.  Applying the same patch a second time changes nothing: for a
    patch in which every dictionary has each key once,
    [update(patch); update(patch)] leaves the data and the file as
    [update(patch)] does. *)
Theorem config_update_is_idempotent (self : Config) (patch : dict) :
  well_formed (JDict patch) ->
  update (update self patch) patch = update self patch.
Proof.
  intros Hwf. apply well_formed_dict in Hwf as [Hnd Hall].
  rewrite List.Forall_forall in Hall.
  unfold update, save. cbn [data].
  rewrite merge_twice; [reflexivity | exact Hnd |].
  intros k v Hin. apply merged_twice. apply (Hall (k, v) Hin).
Qed.

(** X20 on the defaults and a patch of the "ocr" and "app" sections. *)
Lemma config_update_witness :
  update (update (save DEFAULT_CONFIG)
            [("ocr", JDict [("min_text_len", JInt 5)]); ("app", JInt 0)])
         [("ocr", JDict [("min_text_len", JInt 5)]); ("app", JInt 0)]
  = update (save DEFAULT_CONFIG)
      [("ocr", JDict [("min_text_len", JInt 5)]); ("app", JInt 0)].
Proof.
  apply config_update_is_idempotent. cbn. repeat split.
  - repeat (constructor;
            [rewrite ?not_elem_of_cons; repeat split;
             solve [discriminate | apply not_elem_of_nil]|]).
    constructor.
  - repeat constructor. apply not_elem_of_nil.
Defined.

(** *** Reloading the file *)

Lemma dict_get_Some_In k v d : dict_get k d = Some v -> In (k, v) d.
Proof.
  induction d as [|[k' v'] d IH]; cbn; [discriminate|].
  destruct (String.eqb_spec k k'); [intros [= ->]; subst; auto | auto].
Qed.

Lemma filter_absent_set k v base l :
  ~ In k l ->
  List.filter (absent (dict_set k v base)) l = List.filter (absent base) l.
Proof.
  intros Hk. induction l as [|x l IH]; [reflexivity|]. cbn [List.filter].
  assert (Hx : absent (dict_set k v base) x = absent base x).
  { unfold absent. rewrite dict_get_set_ne; [reflexivity|].
    intros ->. apply Hk. left. reflexivity. }
  rewrite Hx, IH; [reflexivity|]. intros H. apply Hk. right. exact H.
Qed.

(** The keys after a merge, exactly. *)
Lemma merge_keys_exact ov : forall base,
  NoDup (keys ov) ->
  keys (_merge_defaults base ov) = keys base ++ List.filter (absent base) (keys ov).
Proof.
  induction ov as [|[k0 v0] ov IH]; intros base Hnd.
  - cbn. rewrite app_nil_r. reflexivity.
  - cbn [keys map fst] in Hnd. apply NoDup_cons in Hnd as [Hk0 Hnd].
    assert (Hk0' : ~ In k0 (keys ov)).
    { intros H. apply Hk0, list_elem_of_In. exact H. }
    rewrite merge_cons, (IH _ Hnd), keys_dict_set, filter_absent_set by exact Hk0'.
    cbn [keys map fst List.filter]. unfold absent at 2.
    destruct (dict_get k0 base); [reflexivity|].
    rewrite <- app_assoc. reflexivity.
Qed.

Lemma filter_absent_keys base l :
  List.filter (absent base) (keys base ++ List.filter (absent base) l)
  = List.filter (absent base) l.
Proof.
  rewrite List.filter_app.
  assert (H1 : List.filter (absent base) (keys base) = []).
  { assert (H : forall l', (forall k, In k l' -> In k (keys base)) ->
                 List.filter (absent base) l' = []).
    { induction l' as [|x l' IH']; intros Hin; [reflexivity|]. cbn [List.filter].
      unfold absent at 1. destruct (dict_get x base) eqn:E.
      - apply IH'. intros k Hk. apply Hin. right. exact Hk.
      - apply dict_get_None in E. exfalso. apply E, Hin. left. reflexivity. }
    apply H. auto. }
  rewrite H1. cbn [app].
  induction l as [|x l IH]; [reflexivity|]. cbn [List.filter].
  destruct (absent base x) eqn:E; cbn [List.filter]; rewrite ?E, IH; reflexivity.
Qed.

(** Dictionaries with the same keys in the same order and the same value
    at every key are equal. *)
Lemma dict_ext : forall d1 d2,
  NoDup (keys d1) -> keys d1 = keys d2 ->
  (forall k, dict_get k d1 = dict_get k d2) -> d1 = d2.
Proof.
  induction d1 as [|[k1 v1] d1 IH]; intros [|[k2 v2] d2] Hnd Hk Hget;
    try discriminate; [reflexivity|].
  cbn [keys map fst] in Hk, Hnd. injection Hk as -> Hk.
  apply NoDup_cons in Hnd as [Hk2 Hnd].
  pose proof (Hget k2) as H2. cbn [dict_get] in H2.
  rewrite String.eqb_refl in H2. injection H2 as ->.
  f_equal. apply IH; [exact Hnd | exact Hk |].
  intros k. pose proof (Hget k) as H. cbn [dict_get] in H.
  destruct (String.eqb_spec k k2) as [E|Hne]; [subst k|exact H].
  assert (E1 : dict_get k2 d1 = None).
  { apply dict_get_None. intros Hin. apply Hk2, list_elem_of_In. exact Hin. }
  assert (E2 : dict_get k2 d2 = None).
  { apply dict_get_None. unfold keys in *. rewrite <- Hk.
    intros Hin. apply Hk2, list_elem_of_In. exact Hin. }
  rewrite E1, E2. reflexivity.
Qed.

(** Merging the result of a merge into the same base gives it back, when
    that holds for the values of the base. *)
Lemma merge_round_trip b s :
  NoDup (keys b) -> NoDup (keys s) ->
  Forall (fun kv => well_formed (snd kv)) b ->
  Forall (fun kv => well_formed (snd kv)) s ->
  (forall k bv, In (k, bv) b -> forall v, well_formed v ->
     merged (merged v (Some bv)) (Some bv) = merged v (Some bv)) ->
  _merge_defaults b (_merge_defaults b s) = _merge_defaults b s.
Proof.
  intros Hb Hs Hwb Hws Hval.
  rewrite List.Forall_forall in Hwb, Hws.
  assert (HM : NoDup (keys (_merge_defaults b s))).
  { destruct (merge_keys s b) as (extra & _ & _ & H). exact (H Hb). }
  apply dict_ext.
  - destruct (merge_keys (_merge_defaults b s) b) as (extra & _ & _ & H).
    exact (H Hb).
  - rewrite (merge_keys_exact (_merge_defaults b s) b HM).
    rewrite (merge_keys_exact s b Hs). rewrite filter_absent_keys. reflexivity.
  - intros k. rewrite (merge_lookup (_merge_defaults b s) b k HM).
    rewrite (merge_lookup s b k Hs).
    destruct (dict_get k s) as [v|] eqn:Es.
    + assert (Hv : well_formed v)
        by exact (Hws (k, v) (dict_get_Some_In k v s Es)).
      destruct (dict_get k b) as [bv|] eqn:Eb.
      * rewrite (Hval k bv (dict_get_Some_In k bv b Eb) v Hv). reflexivity.
      * assert (E : merged v None = v) by (destruct v; reflexivity).
        rewrite !E. reflexivity.
    + destruct (dict_get k b) as [bv|] eqn:Eb; [|reflexivity].
      rewrite merged_self; [reflexivity|].
      exact (Hwb (k, bv) (dict_get_Some_In k bv b Eb)).
Qed.

Lemma merged_round_trip : forall bv,
  well_formed bv -> forall v, well_formed v ->
  merged (merged v (Some bv)) (Some bv) = merged v (Some bv).
Proof.
  apply (json_dict_ind
           (fun bv => well_formed bv -> forall v, well_formed v ->
              merged (merged v (Some bv)) (Some bv) = merged v (Some bv))).
  - intros j Hj _ v _.
    assert (H : forall x, merged x (Some j) = x).
    { intros x. apply merged_other. intros vd bd [_ E].
      injection E as E. exact (Hj bd E). }
    rewrite !H. reflexivity.
  - intros bd IH Hwb v Hwv.
    destruct v as [| | | | | |vd]; try reflexivity.
    apply well_formed_dict in Hwb as [Hb Hallb].
    apply well_formed_dict in Hwv as [Hs Halls].
    rewrite !merged_dict. f_equal. apply merge_round_trip; try assumption.
    rewrite List.Forall_forall in IH, Hallb.
    intros k bv Hin v Hv. apply (IH (k, bv) Hin (Hallb (k, bv) Hin) v Hv).
Qed.

Lemma default_config_well_formed : well_formed (JDict DEFAULT_CONFIG).
Proof.
  cbn. repeat split;
    repeat (constructor;
            [rewrite ?not_elem_of_cons; repeat split;
             solve [discriminate | apply not_elem_of_nil]|]);
    constructor.
Qed.

(** X21.  The file is stable under reloading: the configuration read from
    the file that an earlier construction left behind is that same
    configuration, and the file is rewritten with the same content (for a
    first file in which every dictionary has each key once). *)
Theorem config_reload_is_stable (f : file) :
  (forall j, f = Holds j -> well_formed j) ->
  __init__ (on_disk (__init__ f)) = __init__ f.
Proof.
  intros Hwf.
  assert (HD : _merge_defaults DEFAULT_CONFIG DEFAULT_CONFIG = DEFAULT_CONFIG)
    by reflexivity.
  destruct f as [| |[| | | | | |saved]];
    try (cbn [__init__ load save on_disk]; rewrite HD; reflexivity).
  cbn [__init__ load save on_disk].
  pose proof (Hwf _ eq_refl) as Hs. apply well_formed_dict in Hs as [Hs Halls].
  pose proof default_config_well_formed as Hd.
  apply well_formed_dict in Hd as [Hd Halld].
  rewrite merge_round_trip; try assumption; [reflexivity|].
  rewrite List.Forall_forall in Halld.
  intros k bv Hin v Hv. apply merged_round_trip; [|exact Hv].
  exact (Halld (k, bv) Hin).
Qed.

(** X21 on a saved file that sets one "ocr" entry and adds a section. *)
Lemma config_reload_witness :
  __init__ (on_disk (__init__ (Holds (JDict [("ocr", JDict [("min_text_len", JInt 5)]);
                                            ("extra", JInt 1)]))))
  = __init__ (Holds (JDict [("ocr", JDict [("min_text_len", JInt 5)]);
                            ("extra", JInt 1)])).
Proof.
  apply config_reload_is_stable. intros j [= <-]. cbn. repeat split;
    repeat (constructor;
            [rewrite ?not_elem_of_cons; repeat split;
             solve [discriminate | apply not_elem_of_nil]|]);
    constructor.
Defined.

End ConfigExtras.
